(* Verification of the autotiling core of tileset-painter
   (src/src/components/TilePainter.tsx, src/src/types/tileset.ts).

   The painted-tile map of the component, a JS [Map<string, PaintedTile>]
   keyed by the string `${x},${y}`, is modelled as a [gmap (Z * Z)] keyed
   by the coordinate pair: the key string is an injective function of the
   two integers, so lookups and updates agree.  Sprite rectangles
   (TileData.x/y/width/height) only matter for rendering and are left
   out of the records. *)

From Stdlib Require Import String ZArith QArith Qround List.
From stdpp Require Import base gmap strings list.

Open Scope string_scope.
Open Scope Z_scope.

(* ===================================================================== *)
(* Data model (src/src/types/tileset.ts)                                 *)
(* ===================================================================== *)

(** [BaseMaterial]: id and noise probability (0-100). *)
Record BaseMaterial := {
  mat_id : string;
  noiseProbability : Q
}.

(** [BorderTile]: id, directions, materialA, materialB. *)
Record BorderTile := {
  border_id : string;
  directions : string;
  materialA : string;
  materialB : string
}.

(** [NoiseTile]: id and the material it decorates. *)
Record NoiseTile := {
  noise_id : string;
  baseMaterial : string
}.

(** The part of [TilesetConfig] the painter reads. *)
Record TilesetConfig := {
  config_id : string;
  materials : list BaseMaterial;
  borders : list BorderTile;
  noise : list NoiseTile
}.

(** [PaintedTile]; [tx]/[ty] are the fields [x]/[y];
    [undefined] optional fields are [None]. *)
Record PaintedTile := {
  tx : Z;
  ty : Z;
  materialId : string;
  borderTileId : option string;
  noiseIds : option (list string)
}.

(** [GridConfig] (tile size in pixels included). *)
Record GridConfig := {
  gc_width : Z;
  gc_height : Z;
  tile_w : Z;
  tile_h : Z
}.

Abbreviation tileMap := (gmap (Z * Z) PaintedTile).

(* ===================================================================== *)
(* Small string helpers: String.prototype.startsWith and the removal of  *)
(* a leading occurrence of a pattern.                                    *)
(* ===================================================================== *)

Fixpoint startsWith (s pre : string) : bool :=
  match pre, s with
  | EmptyString, _ => true
  | String c p', String c' s' => Ascii.eqb c c' && startsWith s' p'
  | String _ _, EmptyString => false
  end.

Fixpoint dropPrefix (pre s : string) : string :=
  match pre, s with
  | EmptyString, _ => s
  | String _ p', String _ s' => dropPrefix p' s'
  | String _ _, EmptyString => EmptyString
  end.

(** [s.replace(pre, "")] on a string [s] that starts with [pre]: the first
    occurrence of [pre] is the leading one, so it is the prefix that goes. *)
Definition replacePrefix (s pre : string) : string := dropPrefix pre s.

(* ===================================================================== *)
(* BorderResolver: getAdjacentPositions, matchesBorderPattern and        *)
(* recalculateAllBorders                                                 *)
(* ===================================================================== *)

(** [getAdjacentPositions(x, y)], in the object's key order. *)
Definition getAdjacentPositions (x y : Z) : list (string * (Z * Z)) :=
  [("n", (x, y - 1)); ("ne", (x + 1, y - 1)); ("e", (x + 1, y));
   ("se", (x + 1, y + 1)); ("s", (x, y + 1)); ("sw", (x - 1, y + 1));
   ("w", (x - 1, y)); ("nw", (x - 1, y - 1))].

(** The [surroundings] object: direction name to neighbour material
    ([null] = [None]). *)
Definition Surroundings := list (string * option string).

Definition surroundingsOf (tilesMap : tileMap) (t : PaintedTile) : Surroundings :=
  map (fun '(dir, pos) => (dir, materialId <$> tilesMap !! pos))
      (getAdjacentPositions (tx t) (ty t)).

(** [surroundings[dir]]: a missing key reads as [undefined] ([None]). *)
Definition sur_get (s : Surroundings) (dir : string) : option string :=
  match List.find (fun p => String.eqb (fst p) dir) s with
  | Some (_, v) => v
  | None => None
  end.

(** [surroundings[dir] === borderMaterial]. *)
Definition sur_is (s : Surroundings) (dir b : string) : bool :=
  match sur_get s dir with
  | Some m => String.eqb m b
  | None => false
  end.

Definition orthogonalBorderCount (s : Surroundings) (b : string) : nat :=
  length (List.filter (fun dir => sur_is s dir b) ["n"; "e"; "s"; "w"]).

(** [matchesBorderPattern(surroundings, primaryMaterial, borderMaterial,
    borderType)]. *)
Definition matchesBorderPattern (s : Surroundings)
    (primaryMaterial borderMaterial borderType : string) : bool :=
  let c := orthogonalBorderCount s borderMaterial in
  if String.eqb borderType "n" || String.eqb borderType "s"
     || String.eqb borderType "e" || String.eqb borderType "w" then
    Nat.eqb c 1 && sur_is s borderType borderMaterial
  else if String.eqb borderType "ne" || String.eqb borderType "se"
     || String.eqb borderType "sw" || String.eqb borderType "nw" then
    if Nat.eqb c 1 then sur_is s borderType borderMaterial
    else if Nat.eqb c 0 then sur_is s borderType borderMaterial
    else false
  else if startsWith borderType "inward-" then
    let corner := replacePrefix borderType "inward-" in
    if Nat.leb 2 c then
      if String.eqb corner "ne" then
        sur_is s "n" borderMaterial && sur_is s "e" borderMaterial
        && sur_is s "ne" borderMaterial
      else if String.eqb corner "se" then
        sur_is s "s" borderMaterial && sur_is s "e" borderMaterial
        && sur_is s "se" borderMaterial
      else if String.eqb corner "sw" then
        sur_is s "n" borderMaterial && sur_is s "w" borderMaterial
        && sur_is s "nw" borderMaterial
      else if String.eqb corner "nw" then
        sur_is s "s" borderMaterial && sur_is s "w" borderMaterial
        && sur_is s "sw" borderMaterial
      else false
    else false
  else false.

(** The priority computed inside [recalculateAllBorders]. *)
Definition borderPriority (d : string) : Z :=
  if startsWith d "inward-" then 3
  else if Nat.eqb (String.length d) 1 then 4
  else if Nat.eqb (String.length d) 2 then 2
  else 1.

(** The [for (const border of config.borders)] loop, with [bestBorder] and
    [highestPriority] as accumulators. *)
Fixpoint selectBorder (s : Surroundings) (mat : string) (bs : list BorderTile)
    (bestBorder : option BorderTile) (highestPriority : Z) : option BorderTile :=
  match bs with
  | [] => bestBorder
  | border :: rest =>
      if String.eqb (materialA border) mat
         && matchesBorderPattern s mat (materialB border) (directions border) then
        let priority := borderPriority (directions border) in
        if Z.ltb highestPriority priority then selectBorder s mat rest (Some border) priority
        else selectBorder s mat rest bestBorder highestPriority
      else selectBorder s mat rest bestBorder highestPriority
  end.

(** The updated tile built for each entry of [tilesMap]. *)
Definition recalcTile (cfg : TilesetConfig) (tilesMap : tileMap) (t : PaintedTile) : PaintedTile :=
  let best := selectBorder (surroundingsOf tilesMap t) (materialId t) (borders cfg) None (-1) in
  {| tx := tx t; ty := ty t; materialId := materialId t;
     borderTileId := border_id <$> best; noiseIds := noiseIds t |}.

(** [recalculateAllBorders(tilesMap)]: every entry is rebuilt from the
    original map, under the same key. *)
Definition recalculateAllBorders (cfg : TilesetConfig) (tilesMap : tileMap) : tileMap :=
  recalcTile cfg tilesMap <$> tilesMap.

(* ===================================================================== *)
(* ShapeRasterizer: getTilePosition, getRectangleTiles, getCircleTiles,  *)
(* getFloodFillTiles                                                     *)
(* ===================================================================== *)

Definition inBounds (gc : GridConfig) (p : Z * Z) : bool :=
  (0 <=? p.1) && (p.1 <? gc_width gc) && (0 <=? p.2) && (p.2 <? gc_height gc).

(** [getTilePosition(e)], from the canvas pixel coordinates
    [canvasX]/[canvasY] (the event position already scaled to the canvas):
    [Math.floor(canvasX / tileSize)] is [Z.div] for a positive tile size. *)
Definition getTilePosition (gc : GridConfig) (canvasX canvasY : Z) : option (Z * Z) :=
  let x := canvasX / tile_w gc in
  let y := canvasY / tile_h gc in
  if inBounds gc (x, y) then Some (x, y) else None.

(** [for (let i = a; i <= b; i++)]. *)
Definition zrange (a b : Z) : list Z :=
  map (fun i => a + Z.of_nat i) (seq 0 (Z.to_nat (b - a + 1))).

Definition getRectangleTiles (gc : GridConfig) (start end_ : Z * Z) : list (Z * Z) :=
  let minX := Z.min start.1 end_.1 in
  let maxX := Z.max start.1 end_.1 in
  let minY := Z.min start.2 end_.2 in
  let maxY := Z.max start.2 end_.2 in
  List.filter (inBounds gc)
    (flat_map (fun x => map (fun y => (x, y)) (zrange minY maxY)) (zrange minX maxX)).

(** [getCircleTiles(center, radius)] for the radius of [handleMouseMove],
    [Math.sqrt(d2)] with [d2] the squared drag distance.
    [Math.round(Math.sqrt(d2))] is the integer [r] with
    [(2r-1)^2 <= 4 d2 < (2r+1)^2] (no tie: [4 d2] is even), and
    [Math.sqrt(dx^2+dy^2) <= r] is [dx^2+dy^2 <= r^2]. *)
Definition getCircleTiles (gc : GridConfig) (center : Z * Z) (d2 : Z) : list (Z * Z) :=
  let intRadius := (Z.sqrt (4 * d2) + 1) / 2 in
  List.filter
    (fun p => ((p.1 - center.1) ^ 2 + (p.2 - center.2) ^ 2 <=? intRadius ^ 2)
              && inBounds gc p)
    (flat_map (fun x => map (fun y => (x, y))
                 (zrange (center.2 - intRadius) (center.2 + intRadius)))
              (zrange (center.1 - intRadius) (center.1 + intRadius))).

(** [tile?.materialId || null]: an absent tile, and the falsy id [""], read
    as [null]. *)
Definition matAt (tiles : tileMap) (k : Z * Z) : option string :=
  match tiles !! k with
  | Some t => if String.eqb (materialId t) "" then None else Some (materialId t)
  | None => None
  end.

(** The [while (queue.length > 0)] loop of [getFloodFillTiles].  Each
    iteration dequeues one key; the recursion is bounded by [fuel]. *)
Fixpoint floodLoop (fuel : nat) (gc : GridConfig) (tiles : tileMap)
    (targetMaterial : option string) (visited : gset (Z * Z))
    (queue : list (Z * Z)) (tilesToFill : list (Z * Z)) : list (Z * Z) :=
  match fuel with
  | O => tilesToFill
  | S fuel' =>
      match queue with
      | [] => tilesToFill
      | current :: queue' =>
          if decide (current ∈ visited) then
            floodLoop fuel' gc tiles targetMaterial visited queue' tilesToFill
          else if negb (inBounds gc current) then
            floodLoop fuel' gc tiles targetMaterial visited queue' tilesToFill
          else
            let visited' := {[current]} ∪ visited in
            if decide (matAt tiles current = targetMaterial) then
              let adjacent := [(current.1 + 1, current.2); (current.1 - 1, current.2);
                               (current.1, current.2 + 1); (current.1, current.2 - 1)] in
              floodLoop fuel' gc tiles targetMaterial visited'
                ((queue' ++ List.filter (fun pos => bool_decide (pos ∉ visited')) adjacent)%list)
                (tilesToFill ++ [current])%list
            else floodLoop fuel' gc tiles targetMaterial visited' queue' tilesToFill
      end
  end.

(** Every key enters the queue once from the start and at most four times
    per in-bounds key visited, so [4 * width * height + 1] iterations
    exhaust the queue. *)
Definition floodFuel (gc : GridConfig) : nat :=
  S (4 * Z.to_nat (gc_width gc) * Z.to_nat (gc_height gc)).

Definition getFloodFillTiles (gc : GridConfig) (tiles : tileMap) (start : Z * Z) : list (Z * Z) :=
  floodLoop (floodFuel gc) gc tiles (matAt tiles start) ∅ [start] [].

(* ===================================================================== *)
(* NoiseSampler and TileGridStore: paintTile and paintMultipleTiles      *)
(* ===================================================================== *)

Definition Qltb (a b : Q) : bool := negb (Qle_bool b a).

(** The noise roll of [paintTile]: [random] is the value of
    [Math.random() * 100] and [randomFrac] the second [Math.random()]. *)
Definition selectNoise (cfg : TilesetConfig) (selectedMaterial : string)
    (random randomFrac : Q) : option string :=
  let material := List.find (fun m => String.eqb (mat_id m) selectedMaterial) (materials cfg) in
  let availableNoise := List.filter (fun n => String.eqb (baseMaterial n) selectedMaterial) (noise cfg) in
  match material with
  | Some material =>
      if Nat.ltb 0 (length availableNoise) && Qltb 0 (noiseProbability material) then
        if Qltb random (noiseProbability material) then
          let randomIndex :=
            Z.to_nat (Qfloor (randomFrac * inject_Z (Z.of_nat (length availableNoise)))) in
          noise_id <$> nth_error availableNoise randomIndex
        else None
      else None
  | None => None
  end.

(** [noiseIds: selectedNoiseId ? [selectedNoiseId] : undefined]. *)
Definition noiseIdsOf (selectedNoiseId : option string) : option (list string) :=
  match selectedNoiseId with
  | Some nid => if String.eqb nid "" then None else Some [nid]
  | None => None
  end.

Definition newTile (cfg : TilesetConfig) (selectedMaterial : string) (p : Z * Z)
    (draws : Q * Q) : PaintedTile :=
  {| tx := p.1; ty := p.2; materialId := selectedMaterial; borderTileId := None;
     noiseIds := noiseIdsOf (selectNoise cfg selectedMaterial draws.1 draws.2) |}.

(** The functional update passed to [setPaintedTiles] by [paintTile(x, y)];
    [draws] are the two [Math.random()] results. *)
Definition paintTile (cfg : TilesetConfig) (isErasing : bool) (selectedMaterial : string)
    (p : Z * Z) (draws : Q * Q) (prev : tileMap) : tileMap :=
  if isErasing then recalculateAllBorders cfg (delete p prev)
  else if String.eqb selectedMaterial "" then prev
  else recalculateAllBorders cfg (<[p := newTile cfg selectedMaterial p draws]> prev).

(** The [tileKeys.forEach] of [paintMultipleTiles]; the i-th key rolls its
    noise with [roll i]. *)
Fixpoint setAll (cfg : TilesetConfig) (selectedMaterial : string) (roll : nat -> Q * Q)
    (i : nat) (keys : list (Z * Z)) (m : tileMap) : tileMap :=
  match keys with
  | [] => m
  | k :: ks => setAll cfg selectedMaterial roll (S i) ks
                 (<[k := newTile cfg selectedMaterial k (roll i)]> m)
  end.

Definition paintMultipleTiles (cfg : TilesetConfig) (isErasing : bool) (selectedMaterial : string)
    (tileKeys : list (Z * Z)) (roll : nat -> Q * Q) (prev : tileMap) : tileMap :=
  if isErasing then recalculateAllBorders cfg (fold_left (fun m k => delete k m) tileKeys prev)
  else if String.eqb selectedMaterial "" then prev
  else recalculateAllBorders cfg (setAll cfg selectedMaterial roll 0 tileKeys prev).

(* ===================================================================== *)
(* The TilePainter component: state, mouse handlers, history             *)
(* ===================================================================== *)

Inductive PaintingTool := Brush | Rectangle | Circle | Fill.

(** The component state read and written by the handlers.  A handler reads
    the values of the last render and its [setX] calls take effect for the
    next render, as with React's [useState]; [previewTiles] is the [Set] in
    insertion order. *)
Record Editor := {
  gridConfig : GridConfig;
  paintedTiles : tileMap;
  selectedMaterial : string;
  isPainting : bool;
  isErasing : bool;
  currentTool : PaintingTool;
  drawingStart : option (Z * Z);
  previewTiles : list (Z * Z);
  history : list tileMap;
  historyIndex : nat
}.

Definition initEditor (gc : GridConfig) (mat : string) (tool : PaintingTool) : Editor :=
  {| gridConfig := gc; paintedTiles := ∅; selectedMaterial := mat;
     isPainting := false; isErasing := false; currentTool := tool;
     drawingStart := None; previewTiles := []; history := [∅]; historyIndex := 0 |}.

Definition set_painted (m : tileMap) (e : Editor) : Editor :=
  {| gridConfig := gridConfig e; paintedTiles := m; selectedMaterial := selectedMaterial e;
     isPainting := isPainting e; isErasing := isErasing e; currentTool := currentTool e;
     drawingStart := drawingStart e; previewTiles := previewTiles e;
     history := history e; historyIndex := historyIndex e |}.

Definition set_isPainting (b : bool) (e : Editor) : Editor :=
  {| gridConfig := gridConfig e; paintedTiles := paintedTiles e; selectedMaterial := selectedMaterial e;
     isPainting := b; isErasing := isErasing e; currentTool := currentTool e;
     drawingStart := drawingStart e; previewTiles := previewTiles e;
     history := history e; historyIndex := historyIndex e |}.

Definition set_drawing (ds : option (Z * Z)) (pv : list (Z * Z)) (e : Editor) : Editor :=
  {| gridConfig := gridConfig e; paintedTiles := paintedTiles e; selectedMaterial := selectedMaterial e;
     isPainting := isPainting e; isErasing := isErasing e; currentTool := currentTool e;
     drawingStart := ds; previewTiles := pv;
     history := history e; historyIndex := historyIndex e |}.

Definition set_history (h : list tileMap) (i : nat) (e : Editor) : Editor :=
  {| gridConfig := gridConfig e; paintedTiles := paintedTiles e; selectedMaterial := selectedMaterial e;
     isPainting := isPainting e; isErasing := isErasing e; currentTool := currentTool e;
     drawingStart := drawingStart e; previewTiles := previewTiles e;
     history := h; historyIndex := i |}.

Definition set_gridConfig (gc : GridConfig) (e : Editor) : Editor :=
  {| gridConfig := gc; paintedTiles := paintedTiles e; selectedMaterial := selectedMaterial e;
     isPainting := isPainting e; isErasing := isErasing e; currentTool := currentTool e;
     drawingStart := drawingStart e; previewTiles := previewTiles e;
     history := history e; historyIndex := historyIndex e |}.

(** [new Set(list)]: first occurrences, in order. *)
Fixpoint dedupFirst (seen : list (Z * Z)) (l : list (Z * Z)) : list (Z * Z) :=
  match l with
  | [] => []
  | k :: ks => if bool_decide (k ∈ seen) then dedupFirst seen ks
               else k :: dedupFirst (k :: seen) ks
  end.

(** [handleMouseDown]; [roll] supplies the [Math.random()] results. *)
Definition handleMouseDown (cfg : TilesetConfig) (canvasX canvasY : Z)
    (roll : nat -> Q * Q) (e : Editor) : Editor :=
  match getTilePosition (gridConfig e) canvasX canvasY with
  | None => e
  | Some pos =>
      let e1 := set_isPainting true e in
      match currentTool e with
      | Brush =>
          set_painted (paintTile cfg (isErasing e) (selectedMaterial e) pos (roll O)
                         (paintedTiles e)) e1
      | Rectangle | Circle => set_drawing (Some pos) [pos] e1
      | Fill =>
          let fillTiles := getFloodFillTiles (gridConfig e) (paintedTiles e) pos in
          set_isPainting false
            (set_painted (paintMultipleTiles cfg (isErasing e) (selectedMaterial e)
                            fillTiles roll (paintedTiles e)) e1)
      end
  end.

(** [handleMouseMove]. *)
Definition handleMouseMove (cfg : TilesetConfig) (canvasX canvasY : Z)
    (roll : nat -> Q * Q) (e : Editor) : Editor :=
  if negb (isPainting e) then e
  else match getTilePosition (gridConfig e) canvasX canvasY with
  | None => e
  | Some pos =>
      match currentTool e with
      | Brush =>
          set_painted (paintTile cfg (isErasing e) (selectedMaterial e) pos (roll O)
                         (paintedTiles e)) e
      | Rectangle =>
          match drawingStart e with
          | Some ds => set_drawing (Some ds)
                         (dedupFirst [] (getRectangleTiles (gridConfig e) ds pos)) e
          | None => e
          end
      | Circle =>
          match drawingStart e with
          | Some ds =>
              let d2 := (pos.1 - ds.1) ^ 2 + (pos.2 - ds.2) ^ 2 in
              set_drawing (Some ds) (dedupFirst [] (getCircleTiles (gridConfig e) ds d2)) e
          | None => e
          end
      | Fill => e
      end
  end.

(** [history.slice(0, historyIndex + 1)], push [snapshot], index to the
    new last position. *)
Definition commitSnapshot (snapshot : tileMap) (e : Editor) : Editor :=
  let newHistory := (firstn (S (historyIndex e)) (history e) ++ [snapshot])%list in
  set_history newHistory (pred (length newHistory)) e.

(** [handleMouseUp].  In the rectangle/circle branch [paintMultipleTiles]
    only queues its update of [paintedTiles]; the snapshot pushed right
    after is [new Map(paintedTiles)] of the current render. *)
Definition handleMouseUp (cfg : TilesetConfig) (roll : nat -> Q * Q) (e : Editor) : Editor :=
  let e' :=
    if isPainting e then
      match currentTool e with
      | Brush => commitSnapshot (paintedTiles e) e
      | Rectangle | Circle =>
          let e1 :=
            match previewTiles e with
            | [] => e
            | _ :: _ =>
                commitSnapshot (paintedTiles e)
                  (set_painted (paintMultipleTiles cfg (isErasing e) (selectedMaterial e)
                                  (previewTiles e) roll (paintedTiles e)) e)
            end in
          set_drawing None [] e1
      | Fill => commitSnapshot (paintedTiles e) e
      end
    else e in
  set_isPainting false e'.

(** [clearCanvas]. *)
Definition clearCanvas (e : Editor) : Editor :=
  let newHistory := (history e ++ [∅])%list in
  set_history newHistory (pred (length newHistory)) (set_painted ∅ e).

(** [history[i]] read through [new Map(...)]: [new Map(undefined)] is empty. *)
Definition snapshotAt (h : list tileMap) (i : nat) : tileMap := default ∅ (h !! i).

(** [undo]. *)
Definition undo (e : Editor) : Editor :=
  if Nat.ltb 0 (historyIndex e) then
    set_painted (snapshotAt (history e) (pred (historyIndex e)))
      (set_history (history e) (pred (historyIndex e)) e)
  else e.

(** [redo]. *)
Definition redo (e : Editor) : Editor :=
  if Nat.ltb (historyIndex e) (pred (length (history e))) then
    set_painted (snapshotAt (history e) (S (historyIndex e)))
      (set_history (history e) (S (historyIndex e)) e)
  else e.

(** A parsed map file: [configId], [gridConfig] and the [tiles] entries. *)
Record MapData := {
  md_configId : string;
  md_gridConfig : GridConfig;
  md_tiles : list ((Z * Z) * PaintedTile)
}.

(** The [reader.onload] body of [loadMap] on a parsed document. *)
Definition loadMap (cfg : TilesetConfig) (mapData : MapData) (e : Editor) : Editor :=
  if negb (String.eqb (md_configId mapData) (config_id cfg)) then e
  else
    let restoredTiles := fold_left (fun m kt => <[kt.1 := kt.2]> m) (md_tiles mapData) ∅ in
    let newHistory := (history e ++ [restoredTiles])%list in
    set_history newHistory (pred (length newHistory))
      (set_painted restoredTiles (set_gridConfig (md_gridConfig mapData) e)).

(* ===================================================================== *)
(* Vocabulary of the statements                                          *)
(* ===================================================================== *)

Definition cardinalDirs : list string := ["n"; "e"; "s"; "w"].
Definition diagonalDirs : list string := ["ne"; "se"; "sw"; "nw"].
Definition inwardDirs : list string := ["inward-ne"; "inward-se"; "inward-sw"; "inward-nw"].

(** The twelve direction values of a border rule. *)
Definition knownDirs : list string := cardinalDirs ++ diagonalDirs ++ inwardDirs.

(** The priority classes as the specification lists them: cardinal 4,
    inward corner 3, diagonal corner 2, anything else 1. *)
Definition specPriority (d : string) : Z :=
  if existsb (String.eqb d) cardinalDirs then 4
  else if existsb (String.eqb d) inwardDirs then 3
  else if existsb (String.eqb d) diagonalDirs then 2
  else 1.

(** A rule of the table that applies to a cell of material [mat] with
    surroundings [s]: the test of the loop of [recalculateAllBorders]. *)
Definition ruleMatches (s : Surroundings) (mat : string) (b : BorderTile) : bool :=
  String.eqb (materialA b) mat && matchesBorderPattern s mat (materialB b) (directions b).

Definition matchingRules (cfg : TilesetConfig) (tiles : tileMap) (t : PaintedTile) : list BorderTile :=
  List.filter (ruleMatches (surroundingsOf tiles t) (materialId t)) (borders cfg).

(** An edit of [TileGridStore]: [paintTile] (brush paint or erase) or
    [paintMultipleTiles] (rectangle, circle, flood fill, or their erase). *)
Inductive GridEdit :=
  | EditTile (p : Z * Z) (draws : Q * Q)
  | EditTiles (tileKeys : list (Z * Z)) (roll : nat -> Q * Q).

Definition applyEdit (cfg : TilesetConfig) (isErasing : bool) (selectedMaterial : string)
    (op : GridEdit) (m : tileMap) : tileMap :=
  match op with
  | EditTile p draws => paintTile cfg isErasing selectedMaterial p draws m
  | EditTiles ks roll => paintMultipleTiles cfg isErasing selectedMaterial ks roll m
  end.

(** A tile without border or noise, as the scenarios paint them. *)
Definition plainTile (x y : Z) (mat : string) : PaintedTile :=
  {| tx := x; ty := y; materialId := mat; borderTileId := None; noiseIds := None |}.

(** The 2x1 scenario: grass and water, one east rule [E1]. *)
Definition scenarioConfig : TilesetConfig :=
  {| config_id := "tileset";
     materials := [{| mat_id := "grass"; noiseProbability := 0 |};
                   {| mat_id := "water"; noiseProbability := 0 |}];
     borders := [{| border_id := "E1"; directions := "e";
                    materialA := "grass"; materialB := "water" |}];
     noise := [] |}.

Definition scenarioGrid : tileMap :=
  <[(1, 0) := plainTile 1 0 "water"]> (<[(0, 0) := plainTile 0 0 "grass"]> ∅).

(** A cell of grass at (0,0) with water to the east and to the north-east,
    and a diagonal rule listed before a cardinal rule. *)
Definition priorityConfig : TilesetConfig :=
  {| config_id := "tileset";
     materials := [{| mat_id := "grass"; noiseProbability := 0 |};
                   {| mat_id := "water"; noiseProbability := 0 |}];
     borders := [{| border_id := "NE1"; directions := "ne";
                    materialA := "grass"; materialB := "water" |};
                 {| border_id := "E1"; directions := "e";
                    materialA := "grass"; materialB := "water" |}];
     noise := [] |}.

Definition priorityGrid : tileMap :=
  <[(1, -1) := plainTile 1 (-1) "water"]>
    (<[(1, 0) := plainTile 1 0 "water"]> (<[(0, 0) := plainTile 0 0 "grass"]> ∅)).

(** A material with probability 50 and one noise rule. *)
Definition noisyConfig : TilesetConfig :=
  {| config_id := "tileset";
     materials := [{| mat_id := "grass"; noiseProbability := 50 |}];
     borders := [];
     noise := [{| noise_id := "noise_grass_1"; baseMaterial := "grass" |}] |}.

(** A 2x1 grid with grass at (1,0) only, and draws that roll no noise. *)
Definition strip2x1 : GridConfig := {| gc_width := 2; gc_height := 1; tile_w := 16; tile_h := 16 |}.

Definition refillGrid : tileMap := <[(1, 0) := plainTile 1 0 "grass"]> ∅.

Definition noRoll : nat -> Q * Q := fun _ => (0%Q, 0%Q).

(** Gesture sequences on a 3x3 grid of 16-pixel tiles, painting grass:
    a brush press and release at tile (0,0), then an undo. *)
Definition grid3x3 : GridConfig := {| gc_width := 3; gc_height := 3; tile_w := 16; tile_h := 16 |}.

Definition brushGesture (x y : Z) (e : Editor) : Editor :=
  handleMouseUp scenarioConfig noRoll (handleMouseDown scenarioConfig x y noRoll e).

Definition afterBrush : Editor := brushGesture 0 0 (initEditor grid3x3 "grass" Brush).

Definition afterBrushUndo : Editor := undo afterBrush.

(** A map file of the same tileset with one grass tile at (2,2). *)
Definition sampleMap : MapData :=
  {| md_configId := "tileset"; md_gridConfig := grid3x3;
     md_tiles := [((2, 2), plainTile 2 2 "grass")] |}.

(** A rectangle gesture pressed and released on tile (0,0). *)
Definition afterRectangle : Editor :=
  brushGesture 0 0 (initEditor grid3x3 "grass" Rectangle).

(** A flood-fill press and release on tile (0,0) of the empty grid. *)
Definition afterFill : Editor := brushGesture 0 0 (initEditor grid3x3 "grass" Fill).

(* ===================================================================== *)
(* Vocabulary of the properties of the painter                          *)
(* ===================================================================== *)

(** The four neighbours [getFloodFillTiles] pushes for a filled cell, in its order. *)
Definition floodAdjacent (k : Z * Z) : list (Z * Z) :=
  [(k.1 + 1, k.2); (k.1 - 1, k.2); (k.1, k.2 + 1); (k.1, k.2 - 1)].

(** The cells reachable from [s] through in-bounds, orthogonally adjacent cells whose material (or absence of one) is [tgt]. *)
Inductive floodRegion (gc : GridConfig) (m : tileMap) (tgt : option string) (s : Z * Z)
    : Z * Z -> Prop :=
  | fr_start : inBounds gc s = true -> matAt m s = tgt -> floodRegion gc m tgt s s
  | fr_step (k n : Z * Z) : floodRegion gc m tgt s k -> In n (floodAdjacent k) ->
      inBounds gc n = true -> matAt m n = tgt -> floodRegion gc m tgt s n.

(** All cells of the grid, column by column. *)
Definition gridList (gc : GridConfig) : list (Z * Z) :=
  flat_map (fun x => map (fun y => (x, y)) (zrange 0 (gc_height gc - 1)))
           (zrange 0 (gc_width gc - 1)).

(** The invariant of the flood-fill loop. *)
Definition floodInv (gc : GridConfig) (m : tileMap) (tgt : option string) (s : Z * Z)
    (visited : gset (Z * Z)) (queue acc : list (Z * Z)) : Prop :=
  (forall k, In k acc -> k ∈ visited) /\
  NoDup acc /\
  (forall v, v ∈ visited -> inBounds gc v = true) /\
  (forall v, v ∈ visited -> matAt m v = tgt -> In v acc) /\
  (forall k n, In k acc -> In n (floodAdjacent k) ->
     n ∈ visited \/ In n queue \/ inBounds gc n = false) /\
  (forall k, In k acc -> floodRegion gc m tgt s k) /\
  (forall q, In q queue -> q = s \/ exists k, In k acc /\ In q (floodAdjacent k)) /\
  (s ∈ visited \/ In s queue \/ inBounds gc s = false).

(** What a painted cell holds apart from its border tile. *)
Definition cellContent (t : PaintedTile) : Z * Z * string * option (list string) :=
  (tx t, ty t, materialId t, noiseIds t).

(** Every cell of the map records its own key as its coordinates. *)
Definition keysMatch (m : tileMap) : Prop :=
  forall k t, m !! k = Some t -> (tx t, ty t) = k.

(** Every noise id on a cell names a noise tile of the configuration whose base material is the cell material. *)
Definition noiseOk (cfg : TilesetConfig) (m : tileMap) : Prop :=
  forall k t l nid, m !! k = Some t -> noiseIds t = Some l -> In nid l ->
  exists n, In n (noise cfg) /\ noise_id n = nid /\ baseMaterial n = materialId t.

(** The history index points into the history and the grid equals the snapshot there. *)
Definition historyConsistent (e : Editor) : Prop :=
  (historyIndex e < length (history e))%nat /\
  paintedTiles e = snapshotAt (history e) (historyIndex e).

(** The history index points into the history. *)
Definition historyInRange (e : Editor) : Prop := (historyIndex e < length (history e))%nat.

(** [saveMap]: the file written holds the configuration id, the grid configuration and the entries of the painted map. *)
Definition saveMap (cfg : TilesetConfig) (e : Editor) : MapData :=
  {| md_configId := config_id cfg; md_gridConfig := gridConfig e;
     md_tiles := map_to_list (paintedTiles e) |}.

(** A rectangle gesture pressed on tile (0,0) of the 3x3 grid. *)
Definition rectDragEditor : Editor :=
  handleMouseDown scenarioConfig 0 0 noRoll (initEditor grid3x3 "grass" Rectangle).

(** The 3x3 grid with the flood-fill tool and grass selected. *)
Definition fillEditor : Editor := initEditor grid3x3 "grass" Fill.

(* ===================================================================== *)
(* Lemmas on the border resolver                                         *)
(* ===================================================================== *)

Lemma startsWith_dropPrefix (s pre : string) :
  startsWith s pre = true -> s = (pre ++ dropPrefix pre s)%string.
Proof.
  revert s. induction pre as [|c p IH]; intros s H; [reflexivity|].
  destruct s as [|c' s']; simpl in H; [discriminate|].
  apply andb_prop in H as [Hc Hs]. apply Ascii.eqb_eq in Hc. subst c'.
  transitivity (String c (p ++ dropPrefix p s')%string); [f_equal; apply IH; exact Hs | reflexivity].
Qed.

Lemma sur_is_true (s : Surroundings) (d b : string) :
  sur_is s d b = true <-> sur_get s d = Some b.
Proof.
  unfold sur_is. destruct (sur_get s d) as [m|]; split; intros H.
  - apply String.eqb_eq in H. congruence.
  - apply String.eqb_eq. congruence.
  - discriminate.
  - discriminate.
Qed.

Lemma matches_knownDirs (s : Surroundings) (pm b d : string) :
  matchesBorderPattern s pm b d = true -> In d knownDirs.
Proof.
  unfold matchesBorderPattern. intros H.
  destruct (String.eqb_spec d "n") as [E|_]; [rewrite E; simpl; tauto|].
  destruct (String.eqb_spec d "s") as [E|_]; [rewrite E; simpl; tauto|].
  destruct (String.eqb_spec d "e") as [E|_]; [rewrite E; simpl; tauto|].
  destruct (String.eqb_spec d "w") as [E|_]; [rewrite E; simpl; tauto|].
  destruct (String.eqb_spec d "ne") as [E|_]; [rewrite E; simpl; tauto|].
  destruct (String.eqb_spec d "se") as [E|_]; [rewrite E; simpl; tauto|].
  destruct (String.eqb_spec d "sw") as [E|_]; [rewrite E; simpl; tauto|].
  destruct (String.eqb_spec d "nw") as [E|_]; [rewrite E; simpl; tauto|].
  cbn [orb] in H.
  destruct (startsWith d "inward-") eqn:Hs; [|discriminate].
  apply startsWith_dropPrefix in Hs. unfold replacePrefix in H.
  destruct (Nat.leb 2 (orthogonalBorderCount s b)); [|discriminate].
  destruct (String.eqb_spec (dropPrefix "inward-" d) "ne") as [E|_];
    [rewrite Hs, E; simpl; tauto|].
  destruct (String.eqb_spec (dropPrefix "inward-" d) "se") as [E|_];
    [rewrite Hs, E; simpl; tauto|].
  destruct (String.eqb_spec (dropPrefix "inward-" d) "sw") as [E|_];
    [rewrite Hs, E; simpl; tauto|].
  destruct (String.eqb_spec (dropPrefix "inward-" d) "nw") as [E|_];
    [rewrite Hs, E; simpl; tauto|].
  discriminate.
Qed.

Lemma borderPriority_known (d : string) :
  In d knownDirs -> borderPriority d = specPriority d.
Proof.
  intros H. repeat (destruct H as [<-|H]; [reflexivity|]). destruct H.
Qed.

Lemma borderPriority_pos (d : string) : 1 <= borderPriority d.
Proof.
  unfold borderPriority.
  destruct (startsWith d "inward-"); [lia|].
  destruct (Nat.eqb _ 1); [lia|]. destruct (Nat.eqb _ 2); lia.
Qed.

(** The loop keeps the first matching rule of strictly greatest priority. *)
Lemma selectBorder_cases (s : Surroundings) (mat : string) (bs : list BorderTile)
    (best : option BorderTile) (hp : Z) :
  (selectBorder s mat bs best hp = best /\
   forall b, In b (List.filter (ruleMatches s mat) bs) -> borderPriority (directions b) <= hp)
  \/
  (exists pre b post,
     List.filter (ruleMatches s mat) bs = (pre ++ b :: post)%list /\
     selectBorder s mat bs best hp = Some b /\
     hp < borderPriority (directions b) /\
     (forall b', In b' (List.filter (ruleMatches s mat) bs) ->
                 borderPriority (directions b') <= borderPriority (directions b)) /\
     (forall b', In b' pre -> borderPriority (directions b') < borderPriority (directions b))).
Proof.
  revert best hp. induction bs as [|a bs IH]; intros best hp.
  - left. split; [reflexivity | intros b []].
  - simpl.
    change (String.eqb (materialA a) mat
            && matchesBorderPattern s mat (materialB a) (directions a))
      with (ruleMatches s mat a).
    destruct (ruleMatches s mat a) eqn:Hm.
    + destruct (Z.ltb hp (borderPriority (directions a))) eqn:Hlt.
      * apply Z.ltb_lt in Hlt.
        destruct (IH (Some a) (borderPriority (directions a)))
          as [[Hsel Hall] | (pre & b & post & Hf & Hsel & Hlt' & Hall & Hpre)].
        -- right. exists [], a, (List.filter (ruleMatches s mat) bs).
           split; [reflexivity|]. split; [exact Hsel|]. split; [exact Hlt|].
           split; [|intros b' []].
           intros b' [<-|Hin]; [lia|]. apply Hall. exact Hin.
        -- right. exists (a :: pre), b, post. rewrite Hf.
           split; [reflexivity|]. split; [exact Hsel|]. split; [lia|].
           split.
           ++ intros b' [<-|Hin]; [lia|]. apply Hall. rewrite Hf. exact Hin.
           ++ intros b' [<-|Hin]; [lia|]. apply Hpre. exact Hin.
      * apply Z.ltb_ge in Hlt.
        destruct (IH best hp)
          as [[Hsel Hall] | (pre & b & post & Hf & Hsel & Hlt' & Hall & Hpre)].
        -- left. split; [exact Hsel|].
           intros b [<-|Hin]; [lia|]. apply Hall. exact Hin.
        -- right. exists (a :: pre), b, post. rewrite Hf.
           split; [reflexivity|]. split; [exact Hsel|]. split; [exact Hlt'|].
           split.
           ++ intros b' [<-|Hin]; [lia|]. apply Hall. rewrite Hf. exact Hin.
           ++ intros b' [<-|Hin]; [lia|]. apply Hpre. exact Hin.
    + exact (IH best hp).
Qed.

(** What the loop returns from [None] is a matching rule of the table. *)
Lemma selectBorder_member (s : Surroundings) (mat : string) (bs : list BorderTile)
    (best : option BorderTile) (hp : Z) (b : BorderTile) :
  selectBorder s mat bs best hp = Some b ->
  best = Some b \/ (In b bs /\ ruleMatches s mat b = true).
Proof.
  revert best hp. induction bs as [|a bs IH]; intros best hp H; simpl in H.
  - left. exact H.
  - change (String.eqb (materialA a) mat
            && matchesBorderPattern s mat (materialB a) (directions a))
      with (ruleMatches s mat a) in H.
    destruct (ruleMatches s mat a) eqn:Hm.
    + destruct (Z.ltb hp (borderPriority (directions a))).
      * destruct (IH _ _ H) as [E|[Hin Hr]].
        -- injection E as <-. right. split; [left; reflexivity | exact Hm].
        -- right. split; [right; exact Hin | exact Hr].
      * destruct (IH _ _ H) as [E|[Hin Hr]]; [left; exact E|].
        right. split; [right; exact Hin | exact Hr].
    + destruct (IH _ _ H) as [E|[Hin Hr]]; [left; exact E|].
      right. split; [right; exact Hin | exact Hr].
Qed.

Lemma recalc_lookup (cfg : TilesetConfig) (m : tileMap) (k : Z * Z) :
  recalculateAllBorders cfg m !! k = recalcTile cfg m <$> m !! k.
Proof. unfold recalculateAllBorders. apply lookup_fmap. Qed.

Lemma matching_known (s : Surroundings) (mat : string) (bs : list BorderTile) (b : BorderTile) :
  In b (List.filter (ruleMatches s mat) bs) -> In (directions b) knownDirs.
Proof.
  intros H. apply filter_In in H as [_ H]. unfold ruleMatches in H.
  apply andb_prop in H as [_ H]. exact (matches_knownDirs _ _ _ _ H).
Qed.

Lemma existsb_eqb_In (d : string) (l : list string) :
  existsb (String.eqb d) l = true <-> In d l.
Proof.
  rewrite existsb_exists. split.
  - intros (x & Hin & E). apply String.eqb_eq in E. subst. exact Hin.
  - intros Hin. exists d. split; [exact Hin | apply String.eqb_refl].
Qed.

Lemma specPriority_le4 (d : string) : specPriority d <= 4.
Proof.
  unfold specPriority.
  destruct (existsb _ cardinalDirs); [lia|].
  destruct (existsb _ inwardDirs); [lia|].
  destruct (existsb _ diagonalDirs); lia.
Qed.

Lemma specPriority_4 (d : string) : specPriority d = 4 <-> In d cardinalDirs.
Proof.
  unfold specPriority. rewrite <- existsb_eqb_In.
  destruct (existsb (String.eqb d) cardinalDirs); [tauto|].
  destruct (existsb _ inwardDirs); [split; [lia|discriminate]|].
  destruct (existsb _ diagonalDirs); split; (lia || discriminate).
Qed.

Lemma applyEdit_pass (cfg : TilesetConfig) (isErasing : bool) (sm : string)
    (op : GridEdit) (m : tileMap) :
  isErasing = true \/ sm <> "" ->
  exists m0, applyEdit cfg isErasing sm op m = recalculateAllBorders cfg m0.
Proof.
  intros H. destruct op as [p draws | ks roll]; simpl;
    unfold paintTile, paintMultipleTiles.
  - destruct isErasing; [eexists; reflexivity|].
    destruct H as [H|H]; [discriminate|].
    apply String.eqb_neq in H. rewrite H. eexists; reflexivity.
  - destruct isErasing; [eexists; reflexivity|].
    destruct H as [H|H]; [discriminate|].
    apply String.eqb_neq in H. rewrite H. eexists; reflexivity.
Qed.

(* ===================================================================== *)
(* Claims on the border resolver                                         *)
(* ===================================================================== *)

(** C1: among the rules of the table that match a painted cell, the border
    pass assigns one of greatest priority class (cardinal 4, inward corner
    3, diagonal corner 2, other 1), the first such in the table order;
    so when a cardinal rule matches, the cell gets a cardinal rule. *)
Theorem border_resolver_priority (cfg : TilesetConfig) (m : tileMap) (k : Z * Z)
    (t : PaintedTile) :
  m !! k = Some t ->
  matchingRules cfg m t <> [] ->
  exists pre b post,
    matchingRules cfg m t = (pre ++ b :: post)%list /\
    borderTileId <$> (recalculateAllBorders cfg m !! k) = Some (Some (border_id b)) /\
    (forall b', In b' (matchingRules cfg m t) ->
                specPriority (directions b') <= specPriority (directions b)) /\
    (forall b', In b' pre -> specPriority (directions b') < specPriority (directions b)) /\
    ((exists c, In c (matchingRules cfg m t) /\ In (directions c) cardinalDirs) ->
     In (directions b) cardinalDirs).
Proof.
  intros Hk Hne. rewrite recalc_lookup, Hk. unfold matchingRules in *.
  set (s := surroundingsOf m t) in *.
  destruct (selectBorder_cases s (materialId t) (borders cfg) None (-1))
    as [[_ Hall] | (pre & b & post & Hf & Hsel & _ & Hall & Hpre)].
  - exfalso. destruct (List.filter (ruleMatches s (materialId t)) (borders cfg))
      as [|c l] eqn:Hf; [exact (Hne eq_refl)|].
    specialize (Hall c (or_introl eq_refl)).
    pose proof (borderPriority_pos (directions c)). lia.
  - assert (Hb : In b (List.filter (ruleMatches s (materialId t)) (borders cfg))).
    { rewrite Hf. apply in_or_app. right. left. reflexivity. }
    assert (Hspec : forall b', In b' (List.filter (ruleMatches s (materialId t)) (borders cfg)) ->
                    borderPriority (directions b') = specPriority (directions b')).
    { intros b' Hin. apply borderPriority_known. exact (matching_known _ _ _ _ Hin). }
    exists pre, b, post. split; [exact Hf|]. split.
    { simpl. unfold recalcTile. simpl. fold s. rewrite Hsel. reflexivity. }
    split; [|split].
    + intros b' Hin. rewrite <- (Hspec b' Hin), <- (Hspec b Hb). exact (Hall b' Hin).
    + intros b' Hin.
      assert (Hin' : In b' (List.filter (ruleMatches s (materialId t)) (borders cfg))).
      { rewrite Hf. apply in_or_app. left. exact Hin. }
      rewrite <- (Hspec b' Hin'), <- (Hspec b Hb). exact (Hpre b' Hin).
    + intros (c & Hc & Hcard).
      apply specPriority_4 in Hcard. apply specPriority_4.
      pose proof (specPriority_le4 (directions b)).
      specialize (Hall c Hc). rewrite (Hspec c Hc), (Hspec b Hb) in Hall. lia.
Qed.

Lemma border_resolver_priority_witness :
  priorityGrid !! (0, 0) = Some (plainTile 0 0 "grass") /\
  matchingRules priorityConfig priorityGrid (plainTile 0 0 "grass") <> [] /\
  exists pre b post,
    matchingRules priorityConfig priorityGrid (plainTile 0 0 "grass") = (pre ++ b :: post)%list /\
    borderTileId <$> (recalculateAllBorders priorityConfig priorityGrid !! (0, 0))
      = Some (Some (border_id b)) /\
    (forall b', In b' (matchingRules priorityConfig priorityGrid (plainTile 0 0 "grass")) ->
                specPriority (directions b') <= specPriority (directions b)) /\
    (forall b', In b' pre -> specPriority (directions b') < specPriority (directions b)) /\
    ((exists c, In c (matchingRules priorityConfig priorityGrid (plainTile 0 0 "grass"))
                /\ In (directions c) cardinalDirs) ->
     In (directions b) cardinalDirs).
Proof.
  split; [vm_compute; reflexivity|]. split; [vm_compute; discriminate|].
  apply border_resolver_priority; [vm_compute; reflexivity | vm_compute; discriminate].
Defined.

Lemma inward_needs_two (s : Surroundings) (pm b d : string) :
  startsWith d "inward-" = true -> (orthogonalBorderCount s b < 2)%nat ->
  matchesBorderPattern s pm b d = false.
Proof.
  intros Hs Hc. unfold matchesBorderPattern.
  destruct (String.eqb_spec d "n") as [E|_]; [rewrite E in Hs; discriminate|].
  destruct (String.eqb_spec d "s") as [E|_]; [rewrite E in Hs; discriminate|].
  destruct (String.eqb_spec d "e") as [E|_]; [rewrite E in Hs; discriminate|].
  destruct (String.eqb_spec d "w") as [E|_]; [rewrite E in Hs; discriminate|].
  destruct (String.eqb_spec d "ne") as [E|_]; [rewrite E in Hs; discriminate|].
  destruct (String.eqb_spec d "se") as [E|_]; [rewrite E in Hs; discriminate|].
  destruct (String.eqb_spec d "sw") as [E|_]; [rewrite E in Hs; discriminate|].
  destruct (String.eqb_spec d "nw") as [E|_]; [rewrite E in Hs; discriminate|].
  cbn [orb]. rewrite Hs.
  destruct (Nat.leb_spec 2 (orthogonalBorderCount s b)); [lia | reflexivity].
Qed.

Ltac inward_iff s pm b c1 c2 c3 :=
  change (matchesBorderPattern s pm b _)
    with (if Nat.leb 2 (orthogonalBorderCount s b)
          then sur_is s c1 b && sur_is s c2 b && sur_is s c3 b else false);
  destruct (Nat.leb_spec 2 (orthogonalBorderCount s b));
  rewrite ?andb_true_iff, ?sur_is_true;
  split; [tauto | tauto | discriminate | lia].

(** C2: an inward-corner rule against [B] never matches when fewer than
    two orthogonal neighbours are [B]; inward-ne, inward-se, inward-sw and
    inward-nw match exactly when that count is at least 2 and the triples
    {N, E, NE}, {S, E, SE}, {N, W, NW}, {S, W, SW} are all [B]; and a rule
    the border pass picks is an inward corner only when the count against
    its [materialB] is at least 2. *)
Theorem inward_corner_match :
  (forall (s : Surroundings) (pm b d : string),
     startsWith d "inward-" = true -> (orthogonalBorderCount s b < 2)%nat ->
     matchesBorderPattern s pm b d = false) /\
  (forall (s : Surroundings) (pm b : string),
     matchesBorderPattern s pm b "inward-ne" = true <->
     (2 <= orthogonalBorderCount s b)%nat /\
     sur_get s "n" = Some b /\ sur_get s "e" = Some b /\ sur_get s "ne" = Some b) /\
  (forall (s : Surroundings) (pm b : string),
     matchesBorderPattern s pm b "inward-se" = true <->
     (2 <= orthogonalBorderCount s b)%nat /\
     sur_get s "s" = Some b /\ sur_get s "e" = Some b /\ sur_get s "se" = Some b) /\
  (forall (s : Surroundings) (pm b : string),
     matchesBorderPattern s pm b "inward-sw" = true <->
     (2 <= orthogonalBorderCount s b)%nat /\
     sur_get s "n" = Some b /\ sur_get s "w" = Some b /\ sur_get s "nw" = Some b) /\
  (forall (s : Surroundings) (pm b : string),
     matchesBorderPattern s pm b "inward-nw" = true <->
     (2 <= orthogonalBorderCount s b)%nat /\
     sur_get s "s" = Some b /\ sur_get s "w" = Some b /\ sur_get s "sw" = Some b) /\
  (forall (cfg : TilesetConfig) (m : tileMap) (t : PaintedTile) (r : BorderTile),
     selectBorder (surroundingsOf m t) (materialId t) (borders cfg) None (-1) = Some r ->
     startsWith (directions r) "inward-" = true ->
     (2 <= orthogonalBorderCount (surroundingsOf m t) (materialB r))%nat).
Proof.
  split; [exact inward_needs_two|].
  split; [intros s pm b; inward_iff s pm b "n" "e" "ne"|].
  split; [intros s pm b; inward_iff s pm b "s" "e" "se"|].
  split; [intros s pm b; inward_iff s pm b "n" "w" "nw"|].
  split; [intros s pm b; inward_iff s pm b "s" "w" "sw"|].
  intros cfg m t r Hsel Hs.
  destruct (selectBorder_member _ _ _ _ _ _ Hsel) as [E|[_ Hr]]; [discriminate|].
  unfold ruleMatches in Hr. apply andb_prop in Hr as [_ Hr].
  destruct (Nat.lt_ge_cases (orthogonalBorderCount (surroundingsOf m t) (materialB r)) 2)
    as [Hlt|Hge]; [|exact Hge].
  rewrite (inward_needs_two _ _ _ _ Hs Hlt) in Hr. discriminate.
Qed.

(** C6: a cardinal rule matches iff exactly one orthogonal neighbour is
    its [materialB] and the neighbour in its direction is that material;
    on the 2x1 grass/water grid with the single east rule [E1], (0,0) gets
    [E1] and (1,0) gets no border. *)
Theorem cardinal_rule_match :
  (forall (s : Surroundings) (pm b d : string),
     In d cardinalDirs ->
     (matchesBorderPattern s pm b d = true <->
      orthogonalBorderCount s b = 1%nat /\ sur_get s d = Some b)) /\
  borderTileId <$> (recalculateAllBorders scenarioConfig scenarioGrid !! (0, 0))
    = Some (Some "E1") /\
  borderTileId <$> (recalculateAllBorders scenarioConfig scenarioGrid !! (1, 0))
    = Some None.
Proof.
  split; [|split; vm_compute; reflexivity].
  intros s pm b d Hd.
  destruct Hd as [<-|[<-|[<-|[<-|[]]]]];
    cbn -[orthogonalBorderCount sur_is];
    rewrite andb_true_iff, Nat.eqb_eq, sur_is_true; reflexivity.
Qed.

(** C9: the border pass keeps the set of keys and, in every cell, [x],
    [y], [materialId] and [noiseIds]; only [borderTileId] may change. *)
Theorem border_pass_frame (cfg : TilesetConfig) (m : tileMap) :
  dom (recalculateAllBorders cfg m) = dom m /\
  forall (k : Z * Z) (t : PaintedTile), m !! k = Some t ->
    exists bt, recalculateAllBorders cfg m !! k =
      Some {| tx := tx t; ty := ty t; materialId := materialId t;
              borderTileId := bt; noiseIds := noiseIds t |}.
Proof.
  split.
  - unfold recalculateAllBorders. apply dom_fmap_L.
  - intros k t Hk. rewrite recalc_lookup, Hk. simpl.
    eexists. reflexivity.
Qed.

Lemma recalc_border_owner (cfg : TilesetConfig) (m : tileMap) (k : Z * Z)
    (t : PaintedTile) (bid : string) :
  recalculateAllBorders cfg m !! k = Some t -> borderTileId t = Some bid ->
  exists b, In b (borders cfg) /\ border_id b = bid /\ materialA b = materialId t.
Proof.
  rewrite recalc_lookup. destruct (m !! k) as [t0|] eqn:Hk; [|discriminate].
  simpl. intros E. injection E as <-. unfold recalcTile. simpl.
  destruct (selectBorder _ _ _ None (-1)) as [b|] eqn:Hsel; [|discriminate].
  simpl. intros E. injection E as <-.
  destruct (selectBorder_member _ _ _ _ _ _ Hsel) as [E|[Hin Hr]]; [discriminate|].
  exists b. split; [exact Hin|]. split; [reflexivity|].
  unfold ruleMatches in Hr. apply andb_prop in Hr as [Ha _].
  apply String.eqb_eq in Ha. exact Ha.
Qed.

(** C10: after an edit that ends in a border pass (paint or erase of one
    tile or of a list of tiles: brush, rectangle, circle, flood fill), a
    cell's [borderTileId], when set, is the id of a rule of the table whose
    [materialA] is the cell's own material. *)
Theorem border_ids_of_own_material (cfg : TilesetConfig) (isErasing : bool)
    (sm : string) (op : GridEdit) (m : tileMap) (k : Z * Z) (t : PaintedTile)
    (bid : string) :
  isErasing = true \/ sm <> "" ->
  applyEdit cfg isErasing sm op m !! k = Some t ->
  borderTileId t = Some bid ->
  exists b, In b (borders cfg) /\ border_id b = bid /\ materialA b = materialId t.
Proof.
  intros Hrun Hk Hb. destruct (applyEdit_pass cfg isErasing sm op m Hrun) as [m0 E].
  rewrite E in Hk. exact (recalc_border_owner _ _ _ _ _ Hk Hb).
Qed.

Lemma border_ids_of_own_material_witness :
  (false = true \/ "grass" <> "") /\
  applyEdit scenarioConfig false "grass" (EditTile (0, 0) (0%Q, 0%Q))
    (<[(1, 0) := plainTile 1 0 "water"]> ∅) !! (0, 0)
    = Some {| tx := 0; ty := 0; materialId := "grass"; borderTileId := Some "E1";
              noiseIds := None |} /\
  exists b, In b (borders scenarioConfig) /\ border_id b = "E1" /\ materialA b = "grass".
Proof.
  assert (Hrun : false = true \/ "grass" <> "") by (right; discriminate).
  assert (Hk : applyEdit scenarioConfig false "grass" (EditTile (0, 0) (0%Q, 0%Q))
                 (<[(1, 0) := plainTile 1 0 "water"]> ∅) !! (0, 0)
               = Some {| tx := 0; ty := 0; materialId := "grass"; borderTileId := Some "E1";
                         noiseIds := None |}) by (vm_compute; reflexivity).
  split; [exact Hrun|]. split; [exact Hk|].
  exact (border_ids_of_own_material scenarioConfig false "grass" _ _ (0, 0) _ "E1"
           Hrun Hk eq_refl).
Defined.

(* ===================================================================== *)
(* Out-of-bounds targets                                                 *)
(* ===================================================================== *)

Lemma floodLoop_sound (fuel : nat) (gc : GridConfig) (m : tileMap) (tgt : option string)
    (visited : gset (Z * Z)) (queue acc : list (Z * Z)) (k : Z * Z) :
  In k (floodLoop fuel gc m tgt visited queue acc) ->
  In k acc \/ (inBounds gc k = true /\ matAt m k = tgt).
Proof.
  revert visited queue acc.
  induction fuel as [|f IH]; intros visited queue acc H; cbn [floodLoop] in H;
    [left; exact H|].
  destruct queue as [|cur q]; [left; exact H|].
  destruct (decide (cur ∈ visited)); [exact (IH _ _ _ H)|].
  destruct (inBounds gc cur) eqn:Hb; cbn [negb] in H; [|exact (IH _ _ _ H)].
  destruct (decide (matAt m cur = tgt)) as [Hm|Hm]; [|exact (IH _ _ _ H)].
  destruct (IH _ _ _ H) as [Hin|Hr]; [|right; exact Hr].
  apply in_app_or in Hin as [Hin|[<-|[]]]; [left; exact Hin|].
  right. split; assumption.
Qed.

(** C7: a mouse press or drag (brush paint or erase, or any other tool)
    whose tile position lies outside the grid leaves the whole editor
    state, the painted-cell map included, unchanged, with no error path;
    the coordinate lists handed to the bulk paint (rectangle, circle,
    flood fill) hold only in-bounds coordinates. *)
Theorem out_of_bounds_paint_noop (cfg : TilesetConfig) (e : Editor) (canvasX canvasY : Z)
    (roll : nat -> Q * Q) :
  inBounds (gridConfig e)
    (canvasX / tile_w (gridConfig e), canvasY / tile_h (gridConfig e)) = false ->
  handleMouseDown cfg canvasX canvasY roll e = e /\
  handleMouseMove cfg canvasX canvasY roll e = e /\
  (forall a b k, In k (getRectangleTiles (gridConfig e) a b) -> inBounds (gridConfig e) k = true) /\
  (forall c d2 k, In k (getCircleTiles (gridConfig e) c d2) -> inBounds (gridConfig e) k = true) /\
  (forall m c k, In k (getFloodFillTiles (gridConfig e) m c) -> inBounds (gridConfig e) k = true).
Proof.
  intros Hout.
  assert (Hpos : getTilePosition (gridConfig e) canvasX canvasY = None).
  { unfold getTilePosition. rewrite Hout. reflexivity. }
  split; [unfold handleMouseDown; rewrite Hpos; reflexivity|].
  split; [unfold handleMouseMove; rewrite Hpos; destruct (isPainting e); reflexivity|].
  split; [|split].
  - intros a b k Hk. unfold getRectangleTiles in Hk. apply filter_In in Hk as [_ Hk]. exact Hk.
  - intros c d2 k Hk. unfold getCircleTiles in Hk. apply filter_In in Hk as [_ Hk].
    apply andb_prop in Hk as [_ Hk]. exact Hk.
  - intros m c k Hk. unfold getFloodFillTiles in Hk.
    destruct (floodLoop_sound _ _ _ _ _ _ _ _ Hk) as [[]|[Hb _]]. exact Hb.
Qed.

Lemma out_of_bounds_paint_noop_witness :
  let e := initEditor {| gc_width := 3; gc_height := 3; tile_w := 16; tile_h := 16 |}
             "grass" Brush in
  inBounds (gridConfig e) (100 / tile_w (gridConfig e), 0 / tile_h (gridConfig e)) = false /\
  handleMouseDown scenarioConfig 100 0 (fun _ => (0%Q, 0%Q)) e = e /\
  handleMouseMove scenarioConfig 100 0 (fun _ => (0%Q, 0%Q)) e = e /\
  (forall a b k, In k (getRectangleTiles (gridConfig e) a b) -> inBounds (gridConfig e) k = true) /\
  (forall c d2 k, In k (getCircleTiles (gridConfig e) c d2) -> inBounds (gridConfig e) k = true) /\
  (forall m c k, In k (getFloodFillTiles (gridConfig e) m c) -> inBounds (gridConfig e) k = true).
Proof.
  intros e. split; [reflexivity|].
  apply out_of_bounds_paint_noop. reflexivity.
Defined.

(* ===================================================================== *)
(* NoiseSampler                                                          *)
(* ===================================================================== *)

Lemma Qltb_iff (a b : Q) : Qltb a b = true <-> (a < b)%Q.
Proof.
  unfold Qltb. split.
  - intros H. apply negb_true_iff in H. apply Qnot_le_lt. intros Hle.
    apply Qle_bool_iff in Hle. congruence.
  - intros H. apply negb_true_iff. destruct (Qle_bool b a) eqn:E; [|reflexivity].
    apply Qle_bool_iff in E. exfalso. exact (Qlt_not_le _ _ H E).
Qed.

Lemma randomIndex_lt (r2 : Q) (n : nat) :
  (0 <= r2)%Q -> (r2 < 1)%Q -> (0 < n)%nat ->
  (Z.to_nat (Qfloor (r2 * inject_Z (Z.of_nat n))) < n)%nat.
Proof.
  intros H0 H1 Hn.
  assert (Hpos : (0 < inject_Z (Z.of_nat n))%Q).
  { change 0%Q with (inject_Z 0). rewrite <- Zlt_Qlt. lia. }
  assert (Hlt : (r2 * inject_Z (Z.of_nat n) < inject_Z (Z.of_nat n))%Q).
  { rewrite <- (Qmult_1_l (inject_Z (Z.of_nat n))) at 2.
    apply Qmult_lt_r; assumption. }
  assert (Hge : (0 <= r2 * inject_Z (Z.of_nat n))%Q).
  { apply Qmult_le_0_compat; [assumption | apply Qlt_le_weak; assumption]. }
  pose proof (Qfloor_le (r2 * inject_Z (Z.of_nat n))) as Hle.
  pose proof (Qfloor_resp_le _ _ Hge) as Hz. change (Qfloor 0) with 0%Z in Hz.
  assert (Hzn : (Qfloor (r2 * inject_Z (Z.of_nat n)) < Z.of_nat n)%Z).
  { rewrite Zlt_Qlt. exact (Qle_lt_trans _ _ _ Hle Hlt). }
  lia.
Qed.

Lemma noiseIdsOf_shape (o : option string) :
  noiseIdsOf o = None \/ exists nid, noiseIdsOf o = Some [nid].
Proof.
  destruct o as [nid|]; simpl; [|left; reflexivity].
  destruct (String.eqb nid ""); [left; reflexivity | right; eexists; reflexivity].
Qed.

Lemma filter_nil_forall {A} (f : A -> bool) (l : list A) :
  (forall x, In x l -> f x = false) -> List.filter f l = [].
Proof.
  induction l as [|a l IH]; intros H; [reflexivity|].
  simpl. rewrite (H a (or_introl eq_refl)). apply IH. intros x Hx. apply H. right. exact Hx.
Qed.

(** C8: the tile a paint writes carries no noise or exactly one noise id;
    none for every draw when its material's [noiseProbability] is 0 or no
    noise rule has that material as [baseMaterial]; otherwise (with draws
    [Math.random()] in [0,1) and the editor's non-empty noise ids) one
    rule of the matching set is attached exactly when the draw [r1] of
    [Math.random() * 100] is below [noiseProbability]. *)
Theorem paint_noise_roll (cfg : TilesetConfig) (sm : string) (mat : BaseMaterial)
    (p : Z * Z) (r1 r2 : Q) :
  List.find (fun m => String.eqb (mat_id m) sm) (materials cfg) = Some mat ->
  (noiseIds (newTile cfg sm p (r1, r2)) = None \/
   exists nid, noiseIds (newTile cfg sm p (r1, r2)) = Some [nid]) /\
  ((noiseProbability mat == 0)%Q \/ (forall n, In n (noise cfg) -> baseMaterial n <> sm) ->
   noiseIds (newTile cfg sm p (r1, r2)) = None) /\
  ((0 < noiseProbability mat)%Q ->
   (exists n, In n (noise cfg) /\ baseMaterial n = sm) ->
   (0 <= r2)%Q -> (r2 < 1)%Q ->
   Forall (fun n => noise_id n <> "") (noise cfg) ->
   ((r1 < noiseProbability mat)%Q <->
    exists n, In n (noise cfg) /\ baseMaterial n = sm /\
              noiseIds (newTile cfg sm p (r1, r2)) = Some [noise_id n])).
Proof.
  intros Hfind. unfold newTile. cbn [noiseIds fst snd].
  split; [apply noiseIdsOf_shape|]. unfold selectNoise. rewrite Hfind.
  split.
  - intros [Hz|Hnone].
    + replace (Qltb 0 (noiseProbability mat)) with false; [rewrite andb_false_r; reflexivity|].
      symmetry. apply not_true_iff_false. rewrite Qltb_iff. rewrite Hz. apply Qlt_irrefl.
    + rewrite (filter_nil_forall _ (noise cfg)); [reflexivity|].
      intros n Hn. apply String.eqb_neq. exact (Hnone n Hn).
  - intros Hp (n & Hn & Hbase) H0 H1 Hids.
    set (avail := List.filter (fun n => String.eqb (baseMaterial n) sm) (noise cfg)).
    assert (Hav : In n avail).
    { apply filter_In. split; [exact Hn | apply String.eqb_eq; exact Hbase]. }
    assert (Hlen : (0 < length avail)%nat).
    { destruct avail as [|a l]; [destruct Hav | simpl; lia]. }
    replace (Nat.ltb 0 (length avail)) with true by (symmetry; apply Nat.ltb_lt; exact Hlen).
    replace (Qltb 0 (noiseProbability mat)) with true by (symmetry; apply Qltb_iff; exact Hp).
    simpl andb. cbv zeta.
    destruct (Qltb r1 (noiseProbability mat)) eqn:Hr.
    + apply Qltb_iff in Hr. split; [intros _|intros _; exact Hr].
      pose proof (randomIndex_lt r2 (length avail) H0 H1 Hlen) as Hi.
      apply nth_error_Some in Hi.
      destruct (nth_error avail _) as [n0|] eqn:Hnth; [|contradiction].
      apply nth_error_In in Hnth. apply filter_In in Hnth as [Hn0 Hb0].
      apply String.eqb_eq in Hb0.
      exists n0. split; [exact Hn0|]. split; [exact Hb0|].
      simpl. rewrite List.Forall_forall in Hids.
      pose proof (Hids n0 Hn0) as Hne. apply String.eqb_neq in Hne. rewrite Hne. reflexivity.
    + split.
      * intros Hlt. apply Qltb_iff in Hlt. congruence.
      * intros (n1 & _ & _ & E). discriminate.
Qed.

Lemma paint_noise_roll_witness :
  List.find (fun m => String.eqb (mat_id m) "grass") (materials noisyConfig)
    = Some {| mat_id := "grass"; noiseProbability := 50 |} /\
  (noiseIds (newTile noisyConfig "grass" (0, 0) (10%Q, 0%Q)) = None \/
   exists nid, noiseIds (newTile noisyConfig "grass" (0, 0) (10%Q, 0%Q)) = Some [nid]) /\
  ((noiseProbability {| mat_id := "grass"; noiseProbability := 50 |} == 0)%Q
   \/ (forall n, In n (noise noisyConfig) -> baseMaterial n <> "grass") ->
   noiseIds (newTile noisyConfig "grass" (0, 0) (10%Q, 0%Q)) = None) /\
  ((0 < noiseProbability {| mat_id := "grass"; noiseProbability := 50 |})%Q ->
   (exists n, In n (noise noisyConfig) /\ baseMaterial n = "grass") ->
   (0 <= 0)%Q -> (0 < 1)%Q ->
   Forall (fun n => noise_id n <> "") (noise noisyConfig) ->
   ((10 < noiseProbability {| mat_id := "grass"; noiseProbability := 50 |})%Q <->
    exists n, In n (noise noisyConfig) /\ baseMaterial n = "grass" /\
              noiseIds (newTile noisyConfig "grass" (0, 0) (10%Q, 0%Q)) = Some [noise_id n])).
Proof.
  assert (Hf : List.find (fun m => String.eqb (mat_id m) "grass") (materials noisyConfig)
               = Some {| mat_id := "grass"; noiseProbability := 50 |}) by reflexivity.
  split; [exact Hf|].
  exact (paint_noise_roll noisyConfig "grass" _ (0, 0) 10%Q 0%Q Hf).
Defined.

(* ===================================================================== *)
(* Flood fill                                                            *)
(* ===================================================================== *)

Lemma recalc_matAt (cfg : TilesetConfig) (m : tileMap) (k : Z * Z) :
  matAt (recalculateAllBorders cfg m) k = matAt m k.
Proof. unfold matAt. rewrite recalc_lookup. destruct (m !! k); reflexivity. Qed.

(** C5, as the code fails it: filling the region of the empty cell (0,0)
    of a 2x1 grid with grass, when (1,0) already holds grass, and re-running
    the flood fill at (0,0) returns a larger set. *)
Lemma flood_fill_refill_counterexample :
  getFloodFillTiles strip2x1 refillGrid (0, 0) = [(0, 0)] /\
  getFloodFillTiles strip2x1
    (paintMultipleTiles scenarioConfig false "grass"
       (getFloodFillTiles strip2x1 refillGrid (0, 0)) noRoll refillGrid) (0, 0)
    = [(0, 0); (1, 0)].
Proof. split; vm_compute; reflexivity. Qed.

(* ===================================================================== *)
(* History                                                               *)
(* ===================================================================== *)

(** The commit of [handleMouseUp] truncates the redo future. *)
Lemma commitSnapshot_shape (snapshot : tileMap) (e : Editor) :
  (historyIndex e < length (history e))%nat ->
  history (commitSnapshot snapshot e) = (firstn (S (historyIndex e)) (history e) ++ [snapshot])%list /\
  historyIndex (commitSnapshot snapshot e) = S (historyIndex e).
Proof.
  intros H. unfold commitSnapshot, set_history. simpl. split; [reflexivity|].
  rewrite length_app, length_firstn, Nat.min_l by lia. simpl. lia.
Qed.

(** [undo] does nothing at index 0 and [redo] nothing at the last index. *)
Lemma undo_redo_guards (e : Editor) :
  (historyIndex e = O -> undo e = e) /\
  (historyIndex e = pred (length (history e)) -> redo e = e).
Proof.
  split; intros H.
  - unfold undo. rewrite H. reflexivity.
  - unfold redo. rewrite H, Nat.ltb_irrefl. reflexivity.
Qed.

(** When the live grid is the snapshot at the current index, [undo] then
    [redo] gives it back. *)
Lemma undo_redo_snapshot (e : Editor) :
  (0 < historyIndex e < length (history e))%nat ->
  paintedTiles e = snapshotAt (history e) (historyIndex e) ->
  paintedTiles (redo (undo e)) = paintedTiles e.
Proof.
  intros [H0 H1] Hlive. unfold undo.
  replace (Nat.ltb 0 (historyIndex e)) with true by (symmetry; apply Nat.ltb_lt; exact H0).
  unfold redo. simpl.
  replace (Nat.ltb (pred (historyIndex e)) (pred (length (history e)))) with true
    by (symmetry; apply Nat.ltb_lt; lia).
  simpl. rewrite Hlive. f_equal. lia.
Qed.

(** C3, on the code: after a brush stroke and an undo, [clearCanvas] and
    [loadMap] append to the whole history (the undone snapshot stays
    redoable below the new one) while a brush commit truncates it; and a
    flood-fill gesture commits nothing. *)
Theorem history_commit_paths :
  history afterBrushUndo = [∅; paintedTiles afterBrush] /\
  historyIndex afterBrushUndo = O /\
  history (clearCanvas afterBrushUndo) = [∅; paintedTiles afterBrush; ∅] /\
  historyIndex (clearCanvas afterBrushUndo) = 2%nat /\
  length (history (loadMap scenarioConfig sampleMap afterBrushUndo)) = 3%nat /\
  historyIndex (loadMap scenarioConfig sampleMap afterBrushUndo) = 2%nat /\
  length (history (brushGesture 16 0 afterBrushUndo)) = 2%nat /\
  historyIndex (brushGesture 16 0 afterBrushUndo) = 1%nat /\
  history afterFill = [∅] /\ historyIndex afterFill = O /\
  size (paintedTiles afterFill) = 9%nat.
Proof. vm_compute. repeat split; reflexivity. Qed.

(** C4, on the code: after a rectangle gesture on tile (0,0) the grid holds
    grass at (0,0) but the committed snapshot is the empty grid; undo then
    redo leaves the grid empty. *)
Theorem rectangle_undo_redo_loses_gesture :
  size (paintedTiles afterRectangle) = 1%nat /\
  history afterRectangle = [∅; ∅] /\
  historyIndex afterRectangle = 1%nat /\
  paintedTiles (redo (undo afterRectangle)) = ∅ /\
  paintedTiles (redo (undo afterRectangle)) <> paintedTiles afterRectangle.
Proof.
  vm_compute. split; [reflexivity|]. split; [reflexivity|]. split; [reflexivity|].
  split; [reflexivity|]. discriminate.
Qed.

(* ===================================================================== *)
(* Further properties of the painter                                    *)
(* ===================================================================== *)

Lemma map_inj_NoDup {A B} (f : A -> B) (l : list A) :
  (forall x y, f x = f y -> x = y) -> NoDup l -> NoDup (map f l).
Proof.
  intros Hf Hl. induction Hl as [|x l Hx Hl IH]; simpl; constructor; [|exact IH].
  rewrite list_elem_of_In. intros Hin. apply in_map_iff in Hin as (y & E & Hy). apply Hf in E. subst. apply Hx, list_elem_of_In, Hy.
Qed.

Lemma in_zrange (a b i : Z) : In i (zrange a b) <-> a <= i <= b.
Proof.
  unfold zrange. rewrite in_map_iff. split.
  - intros (n & <- & Hn). apply in_seq in Hn. lia.
  - intros H. exists (Z.to_nat (i - a)). split; [lia | apply in_seq; lia].
Qed.

Lemma zrange_NoDup (a b : Z) : NoDup (zrange a b).
Proof.
  unfold zrange. apply map_inj_NoDup; [|apply NoDup_ListNoDup, seq_NoDup].
  intros n1 n2 E. lia.
Qed.

Lemma in_box (xs ys : list Z) (k : Z * Z) :
  In k (flat_map (fun x => map (fun y => (x, y)) ys) xs) <-> In k.1 xs /\ In k.2 ys.
Proof.
  rewrite in_flat_map. split.
  - intros (x & Hx & Hk). apply in_map_iff in Hk as (y & <- & Hy). simpl. tauto.
  - destruct k as [x y]; simpl. intros [Hx Hy]. exists x. split; [exact Hx|].
    apply in_map_iff. exists y. split; [reflexivity | exact Hy].
Qed.

Lemma box_NoDup (xs ys : list Z) :
  NoDup xs -> NoDup ys -> NoDup (flat_map (fun x => map (fun y => (x, y)) ys) xs).
Proof.
  intros Hxs Hys. induction Hxs as [|x xs Hx Hxs IH]; [constructor|].
  simpl. apply NoDup_app. split; [|split; [|exact IH]].
  - apply map_inj_NoDup; [|exact Hys]. intros y1 y2 E. congruence.
  - intros k Hk1 Hk2. apply list_elem_of_In in Hk1, Hk2.
    apply in_map_iff in Hk1 as (y & <- & _). apply in_box in Hk2 as [Hx' _]. simpl in Hx'.
    apply Hx, list_elem_of_In, Hx'.
Qed.

(** getRectangleTiles: a cell is listed iff it is in bounds and inside the bounding box of the two corners; no cell twice; the order of the corners does not matter. *)
Theorem rectangle_tiles_box (gc : GridConfig) (a b : Z * Z) :
  (forall k, In k (getRectangleTiles gc a b) <->
     inBounds gc k = true /\
     Z.min a.1 b.1 <= k.1 <= Z.max a.1 b.1 /\ Z.min a.2 b.2 <= k.2 <= Z.max a.2 b.2) /\
  NoDup (getRectangleTiles gc a b) /\
  getRectangleTiles gc a b = getRectangleTiles gc b a.
Proof.
  unfold getRectangleTiles. split; [|split].
  - intros k. rewrite filter_In, in_box, !in_zrange. tauto.
  - apply NoDup_ListNoDup, List.NoDup_filter, NoDup_ListNoDup, box_NoDup; apply zrange_NoDup.
  - rewrite (Z.min_comm a.1), (Z.max_comm a.1), (Z.min_comm a.2), (Z.max_comm a.2).
    reflexivity.
Qed.

Lemma circleRadius_nonneg (d2 : Z) : 0 <= (Z.sqrt (4 * d2) + 1) / 2.
Proof. pose proof (Z.sqrt_nonneg (4 * d2)). apply Z.div_pos; lia. Qed.

Lemma circleRadius_round (d2 : Z) : 0 <= d2 ->
  let r := (Z.sqrt (4 * d2) + 1) / 2 in
  (r = 0 \/ (2 * r - 1) ^ 2 <= 4 * d2) /\ 4 * d2 < (2 * r + 1) ^ 2.
Proof.
  intros Hd r.
  pose proof (Z.sqrt_spec (4 * d2) ltac:(lia)) as [Hlo Hhi].
  pose proof (Z.sqrt_nonneg (4 * d2)) as Hs.
  set (s := Z.sqrt (4 * d2)) in *.
  assert (Hr : s = 2 * r - 1 \/ s = 2 * r).
  { unfold r. pose proof (Z.div_mod (s + 1) 2 ltac:(lia)).
    pose proof (Z.mod_pos_bound (s + 1) 2 ltac:(lia)). lia. }
  destruct Hr as [E|E]; rewrite E in Hlo, Hhi; split; nia.
Qed.

(** getCircleTiles: a cell is listed iff it is in bounds and within the rounded radius of the centre; no cell twice; the radius is the square root of the squared distance rounded to the nearest integer. *)
Theorem circle_tiles_disc (gc : GridConfig) (c : Z * Z) (d2 : Z) :
  let r := (Z.sqrt (4 * d2) + 1) / 2 in
  (forall k, In k (getCircleTiles gc c d2) <->
     inBounds gc k = true /\ (k.1 - c.1) ^ 2 + (k.2 - c.2) ^ 2 <= r ^ 2) /\
  NoDup (getCircleTiles gc c d2) /\
  (0 <= d2 -> (r = 0 \/ (2 * r - 1) ^ 2 <= 4 * d2) /\ 4 * d2 < (2 * r + 1) ^ 2).
Proof.
  intros r. pose proof (circleRadius_nonneg d2) as Hr. fold r in Hr.
  split; [|split; [|exact (circleRadius_round d2)]].
  - intros k. unfold getCircleTiles. fold r.
    rewrite filter_In, in_box, !in_zrange, andb_true_iff, Z.leb_le.
    split; [tauto|]. intros [Hb Hd]. split; [|split; assumption].
    assert ((k.1 - c.1) ^ 2 <= r ^ 2) by nia.
    assert ((k.2 - c.2) ^ 2 <= r ^ 2) by nia.
    split; split; nia.
  - unfold getCircleTiles. apply NoDup_ListNoDup, List.NoDup_filter, NoDup_ListNoDup, box_NoDup; apply zrange_NoDup.
Qed.

Lemma length_zrange (a b : Z) : length (zrange a b) = Z.to_nat (b - a + 1).
Proof. unfold zrange. rewrite length_map, length_seq. reflexivity. Qed.

Lemma length_box (xs ys : list Z) :
  length (flat_map (fun x => map (fun y => (x, y)) ys) xs) = (length xs * length ys)%nat.
Proof.
  induction xs as [|x xs IH]; [reflexivity|]. simpl. rewrite length_app, length_map, IH. lia.
Qed.

Lemma in_gridList (gc : GridConfig) (k : Z * Z) : In k (gridList gc) <-> inBounds gc k = true.
Proof.
  unfold gridList, inBounds. rewrite in_box, !in_zrange, !andb_true_iff, !Z.leb_le, !Z.ltb_lt.
  lia.
Qed.

Lemma size_gridCells (gc : GridConfig) :
  (size (list_to_set (gridList gc) : gset (Z * Z)) <= Z.to_nat (gc_width gc) * Z.to_nat (gc_height gc))%nat.
Proof.
  rewrite size_list_to_set by (apply box_NoDup; apply zrange_NoDup).
  unfold gridList. rewrite length_box, !length_zrange.
  replace (gc_width gc - 1 - 0 + 1) with (gc_width gc) by lia.
  replace (gc_height gc - 1 - 0 + 1) with (gc_height gc) by lia. lia.
Qed.

Lemma floodInv_done (gc : GridConfig) (m : tileMap) (tgt : option string) (s : Z * Z)
    (visited : gset (Z * Z)) (acc : list (Z * Z)) :
  floodInv gc m tgt s visited [] acc ->
  (forall k, In k acc <-> floodRegion gc m tgt s k) /\ NoDup acc.
Proof.
  intros (I1 & I2 & I3 & I4 & I5 & I6 & I7 & I8). split; [|exact I2].
  intros k. split; [apply I6|]. intros Hr.
  induction Hr as [Hb Hm | k n _ IH Hn Hb Hm].
  - destruct I8 as [Hv|[[]|Hout]]; [apply I4; assumption | congruence].
  - destruct (I5 k n IH Hn) as [Hv|[[]|Hout]]; [apply I4; assumption | congruence].
Qed.

Lemma floodInv_skip (gc : GridConfig) (m : tileMap) (tgt : option string) (s : Z * Z)
    (visited : gset (Z * Z)) (cur : Z * Z) (q acc : list (Z * Z)) :
  cur ∈ visited \/ inBounds gc cur = false ->
  floodInv gc m tgt s visited (cur :: q) acc -> floodInv gc m tgt s visited q acc.
Proof.
  intros Hc (I1 & I2 & I3 & I4 & I5 & I6 & I7 & I8).
  split; [exact I1|]. split; [exact I2|]. split; [exact I3|]. split; [exact I4|].
  split; [|split; [exact I6|split]].
  - intros k n Hk Hn. destruct (I5 k n Hk Hn) as [H|[[<-|H]|H]]; tauto.
  - intros q0 Hq. apply I7. right. exact Hq.
  - destruct I8 as [H|[[<-|H]|H]]; tauto.
Qed.

Lemma floodInv_visit (gc : GridConfig) (m : tileMap) (tgt : option string) (s : Z * Z)
    (visited : gset (Z * Z)) (cur : Z * Z) (q acc : list (Z * Z)) :
  cur ∉ visited -> inBounds gc cur = true -> matAt m cur <> tgt ->
  floodInv gc m tgt s visited (cur :: q) acc ->
  floodInv gc m tgt s ({[cur]} ∪ visited) q acc.
Proof.
  intros Hv Hb Hm (I1 & I2 & I3 & I4 & I5 & I6 & I7 & I8).
  split; [intros k Hk; apply elem_of_union; right; exact (I1 k Hk)|].
  split; [exact I2|].
  split; [intros v Hv'; apply elem_of_union in Hv' as [Hv'|Hv'];
          [apply elem_of_singleton in Hv'; subst; exact Hb | exact (I3 v Hv')]|].
  split; [intros v Hv' Hm'; apply elem_of_union in Hv' as [Hv'|Hv'];
          [apply elem_of_singleton in Hv'; subst; contradiction | exact (I4 v Hv' Hm')]|].
  split; [|split; [exact I6|split]].
  - intros k n Hk Hn. rewrite elem_of_union, elem_of_singleton.
    destruct (I5 k n Hk Hn) as [H|[[<-|H]|H]]; tauto.
  - intros q0 Hq. apply I7. right. exact Hq.
  - rewrite elem_of_union, elem_of_singleton. destruct I8 as [H|[[<-|H]|H]]; tauto.
Qed.

Lemma floodInv_fill (gc : GridConfig) (m : tileMap) (tgt : option string) (s : Z * Z)
    (visited : gset (Z * Z)) (cur : Z * Z) (q acc : list (Z * Z)) :
  cur ∉ visited -> inBounds gc cur = true -> matAt m cur = tgt ->
  floodInv gc m tgt s visited (cur :: q) acc ->
  floodInv gc m tgt s ({[cur]} ∪ visited)
    (q ++ List.filter (fun pos => bool_decide (pos ∉ {[cur]} ∪ visited)) (floodAdjacent cur))%list
    (acc ++ [cur])%list.
Proof.
  intros Hv Hb Hm (I1 & I2 & I3 & I4 & I5 & I6 & I7 & I8).
  assert (Hreg : floodRegion gc m tgt s cur).
  { destruct (I7 cur (or_introl eq_refl)) as [->|(k & Hk & Hn)];
      [apply fr_start; assumption | exact (fr_step _ _ _ _ k cur (I6 k Hk) Hn Hb Hm)]. }
  split; [intros k Hk; apply in_app_or in Hk as [Hk|[<-|[]]];
          rewrite elem_of_union, elem_of_singleton; [right; exact (I1 k Hk) | left; reflexivity]|].
  split.
  { apply NoDup_app. split; [exact I2|]. split; [|apply NoDup_singleton].
    intros x Hx Hx'. apply list_elem_of_In in Hx. apply list_elem_of_singleton in Hx'. subst.
    exact (Hv (I1 _ Hx)). }
  split; [intros v Hv'; apply elem_of_union in Hv' as [Hv'|Hv'];
          [apply elem_of_singleton in Hv'; subst; exact Hb | exact (I3 v Hv')]|].
  split.
  { intros v Hv' Hm'. apply in_or_app. apply elem_of_union in Hv' as [Hv'|Hv'].
    - apply elem_of_singleton in Hv'. subst. right. left. reflexivity.
    - left. exact (I4 v Hv' Hm'). }
  split; [|split; [|split]].
  - intros k n Hk Hn. rewrite elem_of_union, elem_of_singleton, in_app_iff, filter_In.
    apply in_app_or in Hk as [Hk|[<-|[]]].
    + destruct (I5 k n Hk Hn) as [H|[[<-|H]|H]]; tauto.
    + destruct (decide (n ∈ {[cur]} ∪ visited)) as [H|H].
      * left. apply elem_of_union in H as [H|H]; [left; apply elem_of_singleton in H; exact H | right; exact H].
      * right. left. right. split; [exact Hn|]. apply bool_decide_eq_true. exact H.
  - intros k Hk. apply in_app_or in Hk as [Hk|[<-|[]]]; [exact (I6 k Hk) | exact Hreg].
  - intros q0 Hq. apply in_app_or in Hq as [Hq|Hq].
    + destruct (I7 q0 (or_intror Hq)) as [H|(k & Hk & Hn)]; [left; exact H|].
      right. exists k. split; [apply in_or_app; left; exact Hk | exact Hn].
    + apply filter_In in Hq as [Hq _]. right. exists cur.
      split; [apply in_or_app; right; left; reflexivity | exact Hq].
  - rewrite elem_of_union, elem_of_singleton, in_app_iff. destruct I8 as [H|[[<-|H]|H]]; tauto.
Qed.

Lemma floodLoop_region (gc : GridConfig) (m : tileMap) (tgt : option string) (s : Z * Z)
    (fuel : nat) :
  forall (visited : gset (Z * Z)) (queue acc : list (Z * Z)),
  floodInv gc m tgt s visited queue acc ->
  (length queue + 4 * (size (list_to_set (gridList gc) : gset (Z * Z)) - size visited) <= fuel)%nat ->
  (forall k, In k (floodLoop fuel gc m tgt visited queue acc) <-> floodRegion gc m tgt s k) /\
  NoDup (floodLoop fuel gc m tgt visited queue acc).
Proof.
  set (G := list_to_set (gridList gc) : gset (Z * Z)).
  induction fuel as [|f IH]; intros visited queue acc Hinv Hfuel.
  - destruct queue as [|cur q]; [exact (floodInv_done _ _ _ _ _ _ Hinv) | simpl in Hfuel; lia].
  - cbn [floodLoop]. destruct queue as [|cur q]; [exact (floodInv_done _ _ _ _ _ _ Hinv)|].
    simpl length in Hfuel.
    destruct (decide (cur ∈ visited)) as [Hv|Hv].
    { apply IH; [exact (floodInv_skip _ _ _ _ _ _ _ _ (or_introl Hv) Hinv) | lia]. }
    destruct (inBounds gc cur) eqn:Hb; cbn [negb].
    2:{ apply IH; [exact (floodInv_skip _ _ _ _ _ _ _ _ (or_intror Hb) Hinv) | lia]. }
    assert (Hsub : {[cur]} ∪ visited ⊆ G).
    { destruct Hinv as (_ & _ & I3 & _). intros v Hv'. unfold G.
      rewrite elem_of_list_to_set, list_elem_of_In, in_gridList.
      apply elem_of_union in Hv' as [Hv'|Hv']; [apply elem_of_singleton in Hv'; subst; exact Hb|].
      exact (I3 v Hv'). }
    assert (Hsize : size ({[cur]} ∪ visited) = S (size visited)).
    { rewrite size_union by set_solver. rewrite size_singleton. reflexivity. }
    pose proof (subseteq_size _ _ Hsub) as Hle. fold G in Hfuel.
    destruct (decide (matAt m cur = tgt)) as [Hm|Hm].
    + apply IH; [exact (floodInv_fill _ _ _ _ _ _ _ _ Hv Hb Hm Hinv)|].
      rewrite length_app.
      pose proof (List.filter_length_le (fun pos => bool_decide (pos ∉ {[cur]} ∪ visited))
                    (floodAdjacent cur)) as Hf.
      unfold floodAdjacent in Hf. cbn [length] in Hf.
      change (list_to_set (gridList gc)) with G. lia.
    + apply IH; [exact (floodInv_visit _ _ _ _ _ _ _ _ Hv Hb Hm Hinv)|].
      change (list_to_set (gridList gc)) with G. lia.
Qed.

Lemma floodLoop_prefix (fuel : nat) (gc : GridConfig) (m : tileMap) (tgt : option string) :
  forall (visited : gset (Z * Z)) (queue acc : list (Z * Z)),
  exists rest, floodLoop fuel gc m tgt visited queue acc = (acc ++ rest)%list.
Proof.
  induction fuel as [|f IH]; intros visited queue acc; cbn [floodLoop].
  - exists []. rewrite app_nil_r. reflexivity.
  - destruct queue as [|cur q]; [exists []; rewrite app_nil_r; reflexivity|].
    destruct (decide (cur ∈ visited)); [apply IH|].
    destruct (negb (inBounds gc cur)); [apply IH|].
    destruct (decide (matAt m cur = tgt)); [|apply IH].
    destruct (IH ({[cur]} ∪ visited)
                (q ++ List.filter (fun pos => bool_decide (pos ∉ {[cur]} ∪ visited))
                        [(cur.1 + 1, cur.2); (cur.1 - 1, cur.2); (cur.1, cur.2 + 1); (cur.1, cur.2 - 1)])%list
                (acc ++ [cur])%list) as [rest E].
    exists (cur :: rest). rewrite E, <- app_assoc. reflexivity.
Qed.

Lemma flood_members (gc : GridConfig) (m : tileMap) (s : Z * Z) :
  (forall k, In k (getFloodFillTiles gc m s) <-> floodRegion gc m (matAt m s) s k) /\
  NoDup (getFloodFillTiles gc m s).
Proof.
  apply floodLoop_region.
  - split; [intros k []|]. split; [constructor|]. split; [intros v Hv; set_solver|].
    split; [intros v Hv; set_solver|]. split; [intros k n []|]. split; [intros k []|].
    split; [intros q [<-|[]]; left; reflexivity|]. right. left. left. reflexivity.
  - pose proof (size_gridCells gc). rewrite size_empty. unfold floodFuel. simpl length. lia.
Qed.

(** getFloodFillTiles: the listed cells are exactly the 4-connected region of in-bounds cells holding the start cell material, each once, starting with the start cell when it is in bounds. *)
Theorem flood_fill_region (gc : GridConfig) (m : tileMap) (s : Z * Z) :
  (forall k, In k (getFloodFillTiles gc m s) <-> floodRegion gc m (matAt m s) s k) /\
  NoDup (getFloodFillTiles gc m s) /\
  (inBounds gc s = true -> exists rest, getFloodFillTiles gc m s = s :: rest).
Proof.
  pose proof (flood_members gc m s) as H.
  destruct H as [H1 H2]. split; [exact H1|]. split; [exact H2|].
  intros Hb. unfold getFloodFillTiles, floodFuel. cbn [floodLoop].
  destruct (decide (s ∈ (∅ : gset (Z * Z)))) as [Hs|_]; [set_solver|].
  rewrite Hb. cbn [negb].
  destruct (decide (matAt m s = matAt m s)) as [_|Hn]; [|congruence].
  match goal with |- exists rest, floodLoop ?f ?g ?mm ?t ?v ?q ?a = _ =>
    destruct (floodLoop_prefix f g mm t v q a) as [rest E] end.
  exists rest. rewrite E. reflexivity.
Qed.

Lemma surroundingsOf_ext (m1 m2 : tileMap) (t : PaintedTile) :
  (forall k, materialId <$> m1 !! k = materialId <$> m2 !! k) ->
  surroundingsOf m1 t = surroundingsOf m2 t.
Proof.
  intros H. unfold surroundingsOf. apply map_ext. intros [dir pos]. rewrite H. reflexivity.
Qed.

Lemma recalc_materials (cfg : TilesetConfig) (m : tileMap) (k : Z * Z) :
  materialId <$> recalculateAllBorders cfg m !! k = materialId <$> m !! k.
Proof. rewrite recalc_lookup. destruct (m !! k); reflexivity. Qed.

Lemma recalc_content (cfg : TilesetConfig) (m : tileMap) (k : Z * Z) :
  cellContent <$> recalculateAllBorders cfg m !! k = cellContent <$> m !! k.
Proof. rewrite recalc_lookup. destruct (m !! k); reflexivity. Qed.

(** recalculateAllBorders: running the border pass twice gives the same map as running it once. *)
Theorem border_pass_idempotent (cfg : TilesetConfig) (m : tileMap) :
  recalculateAllBorders cfg (recalculateAllBorders cfg m) = recalculateAllBorders cfg m.
Proof.
  apply map_eq. intros k. rewrite !recalc_lookup. destruct (m !! k) as [t|]; [|reflexivity].
  simpl. f_equal. unfold recalcTile at 1. simpl.
  rewrite (surroundingsOf_ext (recalculateAllBorders cfg m) m); [reflexivity|].
  apply recalc_materials.
Qed.

Lemma matches_some_neighbour (s : Surroundings) (pm b d : string) :
  matchesBorderPattern s pm b d = true -> exists dir, sur_get s dir = Some b.
Proof.
  unfold matchesBorderPattern. intros H.
  destruct (_ || _ || _ || _) in H.
  { apply andb_prop in H as [_ H]. apply sur_is_true in H. eexists; exact H. }
  destruct (_ || _ || _ || _) in H.
  { destruct (Nat.eqb _ 1); [|destruct (Nat.eqb _ 0); [|discriminate]];
      apply sur_is_true in H; eexists; exact H. }
  destruct (startsWith d "inward-"); [|discriminate].
  destruct (Nat.leb 2 _); [|discriminate].
  repeat match type of H with
  | (if ?c then _ else _) = true => destruct c
  end; try discriminate;
  apply andb_prop in H as [H _]; apply andb_prop in H as [H _];
  apply sur_is_true in H; eexists; exact H.
Qed.

Lemma sur_get_surroundings (m : tileMap) (t : PaintedTile) (dir b : string) :
  sur_get (surroundingsOf m t) dir = Some b ->
  exists pos, In (dir, pos) (getAdjacentPositions (tx t) (ty t)) /\ materialId <$> m !! pos = Some b.
Proof.
  unfold sur_get. destruct (List.find _ _) as [[dir' v]|] eqn:Hf; [|discriminate].
  intros ->. apply find_some in Hf as [Hin Heq]. simpl in Heq. apply String.eqb_eq in Heq. subst dir'.
  unfold surroundingsOf in Hin. apply in_map_iff in Hin as ([dir' pos] & E & Hin).
  injection E as -> E. exists pos. split; [exact Hin | exact E].
Qed.

(** recalculateAllBorders: a cell gets a border tile only from a rule of its own material whose other material is on one of its eight neighbours; a cell with no painted neighbour gets no border tile. *)
Theorem border_needs_neighbour (cfg : TilesetConfig) (m : tileMap) (k : Z * Z) (t : PaintedTile) :
  m !! k = Some t ->
  (forall bid, borderTileId <$> (recalculateAllBorders cfg m !! k) = Some (Some bid) ->
   exists b dir pos, In b (borders cfg) /\ border_id b = bid /\ materialA b = materialId t /\
     In (dir, pos) (getAdjacentPositions (tx t) (ty t)) /\
     materialId <$> m !! pos = Some (materialB b)) /\
  ((forall dir pos, In (dir, pos) (getAdjacentPositions (tx t) (ty t)) -> m !! pos = None) ->
   borderTileId <$> (recalculateAllBorders cfg m !! k) = Some None).
Proof.
  intros Hk. rewrite recalc_lookup, Hk.
  cbn -[getAdjacentPositions surroundingsOf selectBorder].
  split.
  - intros bid E. destruct (selectBorder _ _ _ None (-1)) as [b|] eqn:Hsel; [|discriminate].
    injection E as <-.
    destruct (selectBorder_member _ _ _ _ _ _ Hsel) as [E|[Hin Hr]]; [discriminate|].
    unfold ruleMatches in Hr. apply andb_prop in Hr as [Ha Hr]. apply String.eqb_eq in Ha.
    destruct (matches_some_neighbour _ _ _ _ Hr) as [dir Hdir].
    destruct (sur_get_surroundings _ _ _ _ Hdir) as (pos & Hpos & Hm).
    exists b, dir, pos. split; [exact Hin|]. split; [reflexivity|]. split; [exact Ha|].
    split; [exact Hpos | exact Hm].
  - intros Hnone. destruct (selectBorder _ _ _ None (-1)) as [b|] eqn:Hsel; [|reflexivity].
    exfalso. destruct (selectBorder_member _ _ _ _ _ _ Hsel) as [E|[Hin Hr]]; [discriminate|].
    unfold ruleMatches in Hr. apply andb_prop in Hr as [_ Hr].
    destruct (matches_some_neighbour _ _ _ _ Hr) as [dir Hdir].
    destruct (sur_get_surroundings _ _ _ _ Hdir) as (pos & Hpos & Hm).
    rewrite (Hnone dir pos Hpos) in Hm. discriminate.
Qed.

Lemma deleteAll_lookup (keys : list (Z * Z)) :
  forall (m : tileMap) (k : Z * Z),
  (In k keys -> fold_left (fun m k => delete k m) keys m !! k = None) /\
  (~ In k keys -> fold_left (fun m k => delete k m) keys m !! k = m !! k).
Proof.
  induction keys as [|k0 ks IH]; intros m k; [split; [intros []|reflexivity]|].
  simpl. destruct (IH (delete k0 m) k) as [H1 H2]. split.
  - intros Hk. destruct (decide (k0 = k)) as [<-|Hne].
    + destruct (decide (k0 ∈ ks)) as [Hin|Hin].
      * apply H1. apply list_elem_of_In. exact Hin.
      * rewrite H2; [apply lookup_delete_eq | rewrite <- list_elem_of_In; exact Hin].
    + destruct Hk as [|Hk]; [contradiction|]. exact (H1 Hk).
  - intros Hk. rewrite H2 by tauto. apply lookup_delete_ne. tauto.
Qed.

Lemma setAll_lookup (cfg : TilesetConfig) (sm : string) (roll : nat -> Q * Q) (keys : list (Z * Z)) :
  forall (i : nat) (m : tileMap) (k : Z * Z),
  (In k keys -> exists j, nth_error keys j = Some k /\
     setAll cfg sm roll i keys m !! k = Some (newTile cfg sm k (roll (i + j)%nat))) /\
  (~ In k keys -> setAll cfg sm roll i keys m !! k = m !! k).
Proof.
  induction keys as [|k0 ks IH]; intros i m k.
  - split; [intros []|reflexivity].
  - simpl. destruct (IH (S i) (<[k0 := newTile cfg sm k0 (roll i)]> m) k) as [H1 H2].
    split.
    + intros Hk. destruct (decide (k ∈ ks)) as [Hin|Hin]; rewrite list_elem_of_In in Hin.
      * destruct (H1 Hin) as (j & Hj & E). exists (S j). split; [exact Hj|].
        rewrite E. do 3 f_equal. lia.
      * rewrite (H2 Hin). destruct Hk as [<-|Hk]; [|contradiction].
        exists O. split; [reflexivity|]. rewrite lookup_insert_eq, Nat.add_0_r. reflexivity.
    + intros Hk. rewrite H2 by tauto. rewrite lookup_insert_ne by tauto. reflexivity.
Qed.

(** paintTile: erasing removes exactly the cell, painting with no material selected changes nothing, and painting sets the cell to the selected material with the rolled noise; other cells keep their content. *)
Theorem paint_tile_effect (cfg : TilesetConfig) (sm : string) (p : Z * Z) (draws : Q * Q)
    (prev : tileMap) :
  (paintTile cfg true sm p draws prev !! p = None /\
   forall k, k <> p ->
     cellContent <$> paintTile cfg true sm p draws prev !! k = cellContent <$> prev !! k) /\
  paintTile cfg false "" p draws prev = prev /\
  (sm <> "" ->
   cellContent <$> paintTile cfg false sm p draws prev !! p
     = Some (p.1, p.2, sm, noiseIdsOf (selectNoise cfg sm draws.1 draws.2)) /\
   forall k, k <> p ->
     cellContent <$> paintTile cfg false sm p draws prev !! k = cellContent <$> prev !! k).
Proof.
  split; [|split; [reflexivity|]].
  - unfold paintTile. split.
    + rewrite recalc_lookup, lookup_delete_eq. reflexivity.
    + intros k Hk. rewrite recalc_content, lookup_delete_ne by congruence. reflexivity.
  - intros Hsm. unfold paintTile. apply String.eqb_neq in Hsm. cbn [negb]. rewrite Hsm. split.
    + rewrite recalc_content, lookup_insert_eq. reflexivity.
    + intros k Hk. rewrite recalc_content, lookup_insert_ne by congruence. reflexivity.
Qed.

(** paintMultipleTiles: erasing removes exactly the listed cells; painting gives each listed cell the selected material with the noise rolled for its position in the list; other cells keep their content. *)
Theorem paint_multiple_effect (cfg : TilesetConfig) (sm : string) (keys : list (Z * Z))
    (roll : nat -> Q * Q) (prev : tileMap) :
  (forall k, In k keys -> paintMultipleTiles cfg true sm keys roll prev !! k = None) /\
  (forall k, ~ In k keys ->
     cellContent <$> paintMultipleTiles cfg true sm keys roll prev !! k = cellContent <$> prev !! k) /\
  paintMultipleTiles cfg false "" keys roll prev = prev /\
  (sm <> "" ->
   (forall k, In k keys -> exists i, nth_error keys i = Some k /\
      cellContent <$> paintMultipleTiles cfg false sm keys roll prev !! k
        = Some (k.1, k.2, sm, noiseIdsOf (selectNoise cfg sm (roll i).1 (roll i).2))) /\
   (forall k, ~ In k keys ->
      cellContent <$> paintMultipleTiles cfg false sm keys roll prev !! k = cellContent <$> prev !! k)).
Proof.
  unfold paintMultipleTiles. split; [|split; [|split; [reflexivity|]]].
  - intros k Hk. rewrite recalc_lookup. destruct (deleteAll_lookup keys prev k) as [H1 _].
    rewrite (H1 Hk). reflexivity.
  - intros k Hk. rewrite recalc_content. destruct (deleteAll_lookup keys prev k) as [_ H2].
    rewrite (H2 Hk). reflexivity.
  - intros Hsm. apply String.eqb_neq in Hsm. cbn [negb]. rewrite Hsm. split.
    + intros k Hk. destruct (setAll_lookup cfg sm roll keys O prev k) as [H1 _].
      destruct (H1 Hk) as (j & Hj & E). exists j. split; [exact Hj|].
      rewrite recalc_content, E. reflexivity.
    + intros k Hk. destruct (setAll_lookup cfg sm roll keys O prev k) as [_ H2].
      rewrite recalc_content, (H2 Hk). reflexivity.
Qed.

Lemma recalc_cell (cfg : TilesetConfig) (m : tileMap) (k : Z * Z) (t : PaintedTile) :
  recalculateAllBorders cfg m !! k = Some t ->
  exists t0, m !! k = Some t0 /\ cellContent t = cellContent t0.
Proof.
  rewrite recalc_lookup. destruct (m !! k) as [t0|]; [|discriminate].
  intros E. injection E as <-. exists t0. split; reflexivity.
Qed.

Lemma applyEdit_cells (cfg : TilesetConfig) (isErasing : bool) (sm : string) (op : GridEdit)
    (m : tileMap) (k : Z * Z) (t : PaintedTile) :
  applyEdit cfg isErasing sm op m !! k = Some t ->
  (exists t0, m !! k = Some t0 /\ cellContent t = cellContent t0) \/
  (exists draws, cellContent t = cellContent (newTile cfg sm k draws)).
Proof.
  destruct op as [p draws | keys roll]; simpl; [unfold paintTile | unfold paintMultipleTiles];
    destruct isErasing.
  - intros H. apply recalc_cell in H as (t0 & H & E). apply lookup_delete_Some in H as [_ H].
    left. exists t0. split; assumption.
  - destruct (String.eqb sm ""); [intros H; left; exists t; split; [exact H | reflexivity]|].
    intros H. apply recalc_cell in H as (t0 & H & E). apply lookup_insert_Some in H as [[<- <-]|[_ H]].
    + right. exists draws. exact E.
    + left. exists t0. split; assumption.
  - intros H. apply recalc_cell in H as (t0 & H & E).
    destruct (deleteAll_lookup keys m k) as [H1 H2].
    destruct (decide (k ∈ keys)) as [Hin|Hin]; rewrite list_elem_of_In in Hin.
    + rewrite (H1 Hin) in H. discriminate.
    + rewrite (H2 Hin) in H. left. exists t0. split; assumption.
  - destruct (String.eqb sm ""); [intros H; left; exists t; split; [exact H | reflexivity]|].
    intros H. apply recalc_cell in H as (t0 & H & E).
    destruct (setAll_lookup cfg sm roll keys O m k) as [H1 H2].
    destruct (decide (k ∈ keys)) as [Hin|Hin]; rewrite list_elem_of_In in Hin.
    + destruct (H1 Hin) as (j & _ & Hj). rewrite Hj in H. injection H as <-.
      right. exists (roll j). exact E.
    + rewrite (H2 Hin) in H. left. exists t0. split; assumption.
Qed.

Lemma selectNoise_member (cfg : TilesetConfig) (sm : string) (r1 r2 : Q) (nid : string) :
  selectNoise cfg sm r1 r2 = Some nid ->
  exists n, In n (noise cfg) /\ noise_id n = nid /\ baseMaterial n = sm.
Proof.
  unfold selectNoise. destruct (List.find _ _) as [mat|]; [|discriminate].
  destruct (_ && _); [|discriminate]. destruct (Qltb _ _); [|discriminate].
  destruct (nth_error _ _) as [n|] eqn:Hn; [|discriminate].
  simpl. intros E. injection E as <-. apply nth_error_In in Hn.
  apply filter_In in Hn as [Hin Hb]. apply String.eqb_eq in Hb.
  exists n. split; [exact Hin|]. split; [reflexivity | exact Hb].
Qed.

(** Every cell edit keeps the cells keyed by their own coordinates and their noise ids valid for their material. *)
Theorem edits_keep_cells_wellformed (cfg : TilesetConfig) (isErasing : bool) (sm : string)
    (op : GridEdit) (m : tileMap) :
  keysMatch m -> noiseOk cfg m ->
  keysMatch (applyEdit cfg isErasing sm op m) /\ noiseOk cfg (applyEdit cfg isErasing sm op m).
Proof.
  intros Hk Hn. split.
  - intros k t H. destruct (applyEdit_cells _ _ _ _ _ _ _ H) as [(t0 & H0 & E)|(draws & E)];
      unfold cellContent in E; injection E as E1 E2 _ _; rewrite E1, E2.
    + exact (Hk k t0 H0).
    + destruct k; reflexivity.
  - intros k t l nid H Hl Hnid.
    destruct (applyEdit_cells _ _ _ _ _ _ _ H) as [(t0 & H0 & E)|(draws & E)];
      unfold cellContent in E; injection E as _ _ E3 E4; rewrite E3.
    + rewrite E4 in Hl. exact (Hn k t0 l nid H0 Hl Hnid).
    + rewrite E4 in Hl. unfold newTile in Hl. cbn [noiseIds] in Hl. cbn [materialId].
      unfold noiseIdsOf in Hl.
      destruct (selectNoise _ _ _ _) as [nid0|] eqn:Hs; [|discriminate].
      destruct (String.eqb nid0 ""); [discriminate|]. injection Hl as <-.
      destruct Hnid as [<-|[]]. exact (selectNoise_member _ _ _ _ _ Hs).
Qed.

Lemma edits_keep_cells_wellformed_witness :
  keysMatch ∅ /\ noiseOk noisyConfig ∅ /\
  keysMatch (applyEdit noisyConfig false "grass" (EditTile (0, 0) (10%Q, 0%Q)) ∅) /\
  noiseOk noisyConfig (applyEdit noisyConfig false "grass" (EditTile (0, 0) (10%Q, 0%Q)) ∅).
Proof.
  assert (Hk : keysMatch ∅) by (intros k t H; rewrite lookup_empty in H; discriminate).
  assert (Hn : noiseOk noisyConfig ∅) by (intros k t l nid H; rewrite lookup_empty in H; discriminate).
  split; [exact Hk|]. split; [exact Hn|].
  exact (edits_keep_cells_wellformed noisyConfig false "grass" _ ∅ Hk Hn).
Defined.

Lemma undo_redo_id (e : Editor) :
  historyConsistent e -> (0 < historyIndex e)%nat ->
  historyConsistent (undo e) /\ redo (undo e) = e.
Proof.
  intros [Hlt Hp] H0. destruct e as [gc pt sm ip ie ct ds pv h hi]; simpl in *.
  unfold undo. simpl. replace (Nat.ltb 0 hi) with true by (symmetry; apply Nat.ltb_lt; exact H0).
  split; [split; simpl; [lia | reflexivity]|].
  unfold redo. simpl.
  replace (Nat.ltb (pred hi) (pred (length h))) with true by (symmetry; apply Nat.ltb_lt; lia).
  unfold set_painted, set_history. simpl.
  replace (S (pred hi)) with hi by lia. rewrite <- Hp. reflexivity.
Qed.

Lemma redo_undo_id (e : Editor) :
  historyConsistent e -> (S (historyIndex e) < length (history e))%nat ->
  historyConsistent (redo e) /\ undo (redo e) = e.
Proof.
  intros [Hlt Hp] H1. destruct e as [gc pt sm ip ie ct ds pv h hi]; simpl in *.
  unfold redo. simpl.
  replace (Nat.ltb hi (pred (length h))) with true by (symmetry; apply Nat.ltb_lt; lia).
  split; [split; simpl; [lia | reflexivity]|].
  unfold undo. simpl. replace (Nat.ltb 0 (S hi)) with true by reflexivity.
  unfold set_painted, set_history. simpl. rewrite <- Hp. reflexivity.
Qed.

Lemma mouseDown_history (cfg : TilesetConfig) (cx cy : Z) (roll : nat -> Q * Q) (e : Editor) :
  history (handleMouseDown cfg cx cy roll e) = history e /\
  historyIndex (handleMouseDown cfg cx cy roll e) = historyIndex e.
Proof.
  unfold handleMouseDown. destruct (getTilePosition _ _ _); [destruct (currentTool e)|]; split; reflexivity.
Qed.

Lemma mouseMove_history (cfg : TilesetConfig) (cx cy : Z) (roll : nat -> Q * Q) (e : Editor) :
  history (handleMouseMove cfg cx cy roll e) = history e /\
  historyIndex (handleMouseMove cfg cx cy roll e) = historyIndex e.
Proof.
  unfold handleMouseMove. destruct (negb (isPainting e)); [split; reflexivity|].
  destruct (getTilePosition _ _ _); [|split; reflexivity].
  destruct (currentTool e); [| destruct (drawingStart e) | destruct (drawingStart e) |];
    split; reflexivity.
Qed.

Lemma appended_inRange (h : list tileMap) (s : tileMap) :
  (pred (length (h ++ [s])%list) < length (h ++ [s])%list)%nat.
Proof. rewrite length_app. simpl. lia. Qed.

Lemma commit_inRange (s : tileMap) (e : Editor) : historyInRange (commitSnapshot s e).
Proof. unfold historyInRange, commitSnapshot, set_history. simpl. apply appended_inRange. Qed.

(** No handler moves the history index outside the history. *)
Theorem history_index_in_range (cfg : TilesetConfig) (roll : nat -> Q * Q) (cx cy : Z)
    (d : MapData) (e : Editor) :
  historyInRange e ->
  historyInRange (handleMouseDown cfg cx cy roll e) /\
  historyInRange (handleMouseMove cfg cx cy roll e) /\
  historyInRange (handleMouseUp cfg roll e) /\
  historyInRange (clearCanvas e) /\
  historyInRange (undo e) /\
  historyInRange (redo e) /\
  historyInRange (loadMap cfg d e).
Proof.
  unfold historyInRange. intros H. split; [|split; [|split; [|split; [|split; [|split]]]]].
  - destruct (mouseDown_history cfg cx cy roll e) as [-> ->]. exact H.
  - destruct (mouseMove_history cfg cx cy roll e) as [-> ->]. exact H.
  - unfold handleMouseUp. destruct (isPainting e); [|exact H].
    destruct (currentTool e); try apply commit_inRange.
    all: destruct (previewTiles e); [exact H | apply commit_inRange].
  - unfold clearCanvas, set_history. simpl. apply appended_inRange.
  - unfold undo. destruct (Nat.ltb 0 _); simpl; lia.
  - unfold redo. destruct (Nat.ltb _ _) eqn:E; simpl; [apply Nat.ltb_lt in E|]; lia.
  - unfold loadMap. destruct (negb _); [exact H|]. unfold set_history. simpl. apply appended_inRange.
Qed.

Lemma history_index_in_range_witness :
  historyInRange (initEditor grid3x3 "grass" Brush) /\
  historyInRange (handleMouseDown scenarioConfig 0 0 noRoll (initEditor grid3x3 "grass" Brush)) /\
  historyInRange (handleMouseMove scenarioConfig 0 0 noRoll (initEditor grid3x3 "grass" Brush)) /\
  historyInRange (handleMouseUp scenarioConfig noRoll (initEditor grid3x3 "grass" Brush)) /\
  historyInRange (clearCanvas (initEditor grid3x3 "grass" Brush)) /\
  historyInRange (undo (initEditor grid3x3 "grass" Brush)) /\
  historyInRange (redo (initEditor grid3x3 "grass" Brush)) /\
  historyInRange (loadMap scenarioConfig sampleMap (initEditor grid3x3 "grass" Brush)).
Proof.
  assert (H : historyInRange (initEditor grid3x3 "grass" Brush)) by (unfold historyInRange; simpl; lia).
  split; [exact H|]. exact (history_index_in_range scenarioConfig noRoll 0 0 sampleMap _ H).
Defined.

Lemma commit_consistent (e : Editor) :
  historyInRange e ->
  historyConsistent (commitSnapshot (paintedTiles e) e) /\
  snapshotAt (history (commitSnapshot (paintedTiles e) e)) (historyIndex e)
    = snapshotAt (history e) (historyIndex e).
Proof.
  unfold historyInRange. intros H. destruct (commitSnapshot_shape (paintedTiles e) e H) as [Eh Ei].
  split.
  - split; [rewrite Eh, Ei, length_app, length_take, Nat.min_l by lia; cbn [length]; lia|].
    unfold snapshotAt. rewrite Eh, Ei. rewrite lookup_app_r; rewrite length_take; [|lia].
    replace (S (historyIndex e) - min (S (historyIndex e)) (length (history e)))%nat with O by lia.
    reflexivity.
  - unfold snapshotAt. rewrite Eh. rewrite lookup_app_l by (rewrite length_take; lia).
    rewrite lookup_take_lt by lia. reflexivity.
Qed.

(** A brush press and release paints the cell, truncates the redo tail, appends the new grid and moves the index to it; undo then restores the grid before the gesture and redo restores the gesture. *)
Theorem brush_gesture_commit (cfg : TilesetConfig) (cx cy : Z) (roll : nat -> Q * Q)
    (e : Editor) (pos : Z * Z) :
  historyConsistent e -> currentTool e = Brush ->
  getTilePosition (gridConfig e) cx cy = Some pos ->
  let e' := handleMouseUp cfg roll (handleMouseDown cfg cx cy roll e) in
  paintedTiles e' = paintTile cfg (isErasing e) (selectedMaterial e) pos (roll O) (paintedTiles e) /\
  history e' = (firstn (S (historyIndex e)) (history e) ++ [paintedTiles e'])%list /\
  historyIndex e' = S (historyIndex e) /\
  historyConsistent e' /\
  paintedTiles (undo e') = paintedTiles e /\
  redo (undo e') = e'.
Proof.
  intros [Hlt Hp] Ht Hpos e'.
  set (e1 := set_painted (paintTile cfg (isErasing e) (selectedMaterial e) pos (roll O) (paintedTiles e))
               (set_isPainting true e)).
  assert (He1 : handleMouseDown cfg cx cy roll e = e1).
  { unfold handleMouseDown. rewrite Hpos, Ht. reflexivity. }
  assert (He' : e' = set_isPainting false (commitSnapshot (paintedTiles e1) e1)).
  { unfold e'. rewrite He1. unfold handleMouseUp. simpl. rewrite Ht. reflexivity. }
  assert (Hr1 : historyInRange e1) by exact Hlt.
  destruct (commitSnapshot_shape (paintedTiles e1) e1 Hr1) as [Eh Ei].
  destruct (commit_consistent e1 Hr1) as [[Hlt' Hp'] Hsnap].
  assert (Hc : historyConsistent e') by (rewrite He'; split; assumption).
  split; [rewrite He'; reflexivity|].
  split; [rewrite He'; exact Eh|].
  split; [rewrite He'; exact Ei|].
  split; [exact Hc|].
  assert (H0 : (0 < historyIndex e')%nat).
  { rewrite He'. change (0 < historyIndex (commitSnapshot (paintedTiles e1) e1))%nat.
    rewrite Ei. lia. }
  split; [|exact (proj2 (undo_redo_id e' Hc H0))].
  assert (Hu : paintedTiles (undo e') = snapshotAt (history e') (pred (historyIndex e'))).
  { unfold undo. replace (Nat.ltb 0 (historyIndex e')) with true
      by (symmetry; apply Nat.ltb_lt; exact H0). reflexivity. }
  rewrite Hu, He'.
  change (history (set_isPainting false (commitSnapshot (paintedTiles e1) e1)))
    with (history (commitSnapshot (paintedTiles e1) e1)).
  change (historyIndex (set_isPainting false (commitSnapshot (paintedTiles e1) e1)))
    with (historyIndex (commitSnapshot (paintedTiles e1) e1)).
  rewrite Ei. cbn [pred]. rewrite Hsnap. symmetry. exact Hp.
Qed.

Lemma brush_gesture_commit_witness :
  let e := initEditor grid3x3 "grass" Brush in
  historyConsistent e /\ currentTool e = Brush /\
  getTilePosition (gridConfig e) 20 5 = Some (1, 0) /\
  (let e' := handleMouseUp scenarioConfig noRoll (handleMouseDown scenarioConfig 20 5 noRoll e) in
   paintedTiles e' = paintTile scenarioConfig (isErasing e) (selectedMaterial e) (1, 0) (noRoll O) (paintedTiles e) /\
   history e' = (firstn (S (historyIndex e)) (history e) ++ [paintedTiles e'])%list /\
   historyIndex e' = S (historyIndex e) /\
   historyConsistent e' /\
   paintedTiles (undo e') = paintedTiles e /\
   redo (undo e') = e').
Proof.
  intros e.
  assert (Hc : historyConsistent e) by (split; simpl; [lia | reflexivity]).
  assert (Hp : getTilePosition (gridConfig e) 20 5 = Some (1, 0)) by reflexivity.
  split; [exact Hc|]. split; [reflexivity|]. split; [exact Hp|].
  exact (brush_gesture_commit scenarioConfig 20 5 noRoll e (1, 0) Hc eq_refl Hp).
Defined.

Lemma restore_permutation (m : tileMap) (tiles : list ((Z * Z) * PaintedTile)) :
  tiles ≡ₚ map_to_list m ->
  fold_left (fun m kt => <[kt.1 := kt.2]> m) tiles ∅ = m.
Proof.
  intros Hp.
  assert (Hr : rev tiles ≡ₚ map_to_list m) by (rewrite <- Hp; symmetry; apply Permutation_rev).
  rewrite <- fold_left_rev_right.
  change (fold_right (fun kt m => <[kt.1 := kt.2]> m) ∅ (rev tiles)) with
    (list_to_map (rev tiles) : tileMap).
  rewrite <- (list_to_map_to_list m).
  apply list_to_map_proper.
  - rewrite Hr. apply NoDup_fst_map_to_list.
  - exact Hr.
Qed.

(** Loading a saved map of the same configuration restores its grid and grid configuration and appends the grid to the history; a map of another configuration changes nothing. *)
Theorem save_load_roundtrip (cfg : TilesetConfig) (e e0 : Editor)
    (tiles : list ((Z * Z) * PaintedTile)) :
  tiles ≡ₚ md_tiles (saveMap cfg e) ->
  let d := {| md_configId := md_configId (saveMap cfg e);
              md_gridConfig := md_gridConfig (saveMap cfg e); md_tiles := tiles |} in
  paintedTiles (loadMap cfg d e0) = paintedTiles e /\
  gridConfig (loadMap cfg d e0) = gridConfig e /\
  history (loadMap cfg d e0) = (history e0 ++ [paintedTiles e])%list /\
  historyIndex (loadMap cfg d e0) = length (history e0) /\
  (forall cfg', config_id cfg' <> config_id cfg -> loadMap cfg' d e0 = e0).
Proof.
  intros Hp d. unfold loadMap. simpl. rewrite String.eqb_refl. cbn [negb].
  rewrite (restore_permutation (paintedTiles e) tiles Hp).
  split; [reflexivity|]. split; [reflexivity|]. split; [reflexivity|].
  split; [simpl; rewrite length_app; simpl; lia|].
  intros cfg' Hne. simpl. destruct (String.eqb_spec (config_id cfg) (config_id cfg')) as [E|_];
    [congruence | reflexivity].
Qed.

Lemma save_load_roundtrip_witness :
  let e := afterBrush in
  map_to_list (paintedTiles e) ≡ₚ md_tiles (saveMap scenarioConfig e) /\
  (let d := {| md_configId := md_configId (saveMap scenarioConfig e);
               md_gridConfig := md_gridConfig (saveMap scenarioConfig e);
               md_tiles := map_to_list (paintedTiles e) |} in
   paintedTiles (loadMap scenarioConfig d (initEditor grid3x3 "grass" Brush)) = paintedTiles e /\
   gridConfig (loadMap scenarioConfig d (initEditor grid3x3 "grass" Brush)) = gridConfig e /\
   history (loadMap scenarioConfig d (initEditor grid3x3 "grass" Brush))
     = (history (initEditor grid3x3 "grass" Brush) ++ [paintedTiles e])%list /\
   historyIndex (loadMap scenarioConfig d (initEditor grid3x3 "grass" Brush))
     = length (history (initEditor grid3x3 "grass" Brush)) /\
   (forall cfg', config_id cfg' <> config_id scenarioConfig ->
      loadMap cfg' d (initEditor grid3x3 "grass" Brush) = initEditor grid3x3 "grass" Brush)).
Proof.
  intros e. assert (Hp : map_to_list (paintedTiles e) ≡ₚ md_tiles (saveMap scenarioConfig e)) by reflexivity.
  split; [exact Hp|].
  exact (save_load_roundtrip scenarioConfig e (initEditor grid3x3 "grass" Brush) _ Hp).
Defined.

(** getTilePosition maps a pixel to the in-bounds tile whose pixel square contains it, and to nothing else. *)
Theorem tile_position_pixel (gc : GridConfig) (cx cy x y : Z) :
  0 < tile_w gc -> 0 < tile_h gc ->
  getTilePosition gc cx cy = Some (x, y) <->
  inBounds gc (x, y) = true /\
  x * tile_w gc <= cx < (x + 1) * tile_w gc /\ y * tile_h gc <= cy < (y + 1) * tile_h gc.
Proof.
  intros Hw Hh. unfold getTilePosition. split.
  - destruct (inBounds gc (cx / tile_w gc, cy / tile_h gc)) eqn:Hb; [|discriminate].
    intros E. injection E as <- <-. split; [exact Hb|].
    pose proof (Z.mul_div_le cx (tile_w gc) Hw). pose proof (Z.mul_succ_div_gt cx (tile_w gc) Hw).
    pose proof (Z.mul_div_le cy (tile_h gc) Hh). pose proof (Z.mul_succ_div_gt cy (tile_h gc) Hh).
    lia.
  - intros (Hb & Hx & Hy).
    assert (Ex : cx / tile_w gc = x).
    { symmetry; apply (Z.div_unique cx (tile_w gc) x (cx - x * tile_w gc)); [left; lia | lia]. }
    assert (Ey : cy / tile_h gc = y).
    { symmetry; apply (Z.div_unique cy (tile_h gc) y (cy - y * tile_h gc)); [left; lia | lia]. }
    rewrite Ex, Ey, Hb. reflexivity.
Qed.

Lemma tile_position_pixel_witness :
  0 < tile_w grid3x3 /\ 0 < tile_h grid3x3 /\
  (getTilePosition grid3x3 20 47 = Some (1, 2) <->
   inBounds grid3x3 (1, 2) = true /\
   1 * tile_w grid3x3 <= 20 < (1 + 1) * tile_w grid3x3 /\
   2 * tile_h grid3x3 <= 47 < (2 + 1) * tile_h grid3x3).
Proof.
  assert (Hw : 0 < tile_w grid3x3) by (simpl; lia).
  assert (Hh : 0 < tile_h grid3x3) by (simpl; lia).
  split; [exact Hw|]. split; [exact Hh|].
  exact (tile_position_pixel grid3x3 20 47 1 2 Hw Hh).
Defined.

(** When the grid equals the snapshot at the history index, redo undoes an undo and undo undoes a redo. *)
Theorem undo_redo_inverse (e : Editor) :
  historyConsistent e ->
  ((0 < historyIndex e)%nat -> historyConsistent (undo e) /\ redo (undo e) = e) /\
  ((S (historyIndex e) < length (history e))%nat -> historyConsistent (redo e) /\ undo (redo e) = e).
Proof.
  intros Hc. split; intros H; [exact (undo_redo_id e Hc H) | exact (redo_undo_id e Hc H)].
Qed.

Lemma undo_redo_inverse_witness :
  historyConsistent afterBrush /\
  ((0 < historyIndex afterBrush)%nat ->
   historyConsistent (undo afterBrush) /\ redo (undo afterBrush) = afterBrush) /\
  ((S (historyIndex afterBrush) < length (history afterBrush))%nat ->
   historyConsistent (redo afterBrush) /\ undo (redo afterBrush) = afterBrush).
Proof.
  assert (Hc : historyConsistent afterBrush) by (split; vm_compute; [lia | reflexivity]).
  split; [exact Hc|]. exact (undo_redo_inverse afterBrush Hc).
Defined.

(** Clearing at the end of a consistent history empties the grid, and undo restores the grid before the clear. *)
Theorem clear_then_undo (e : Editor) :
  historyConsistent e -> historyIndex e = pred (length (history e)) ->
  paintedTiles (clearCanvas e) = ∅ /\
  historyConsistent (clearCanvas e) /\
  paintedTiles (undo (clearCanvas e)) = paintedTiles e /\
  redo (undo (clearCanvas e)) = clearCanvas e.
Proof.
  intros [Hlt Hp] Hlast.
  assert (Hi : historyIndex (clearCanvas e) = length (history e)).
  { unfold clearCanvas, set_history. simpl. rewrite length_app. simpl. lia. }
  assert (Hh : history (clearCanvas e) = (history e ++ [∅])%list) by reflexivity.
  assert (Hc : historyConsistent (clearCanvas e)).
  { split; [rewrite Hi, Hh, length_app; simpl; lia|].
    unfold snapshotAt. rewrite Hi, Hh, lookup_app_r, Nat.sub_diag by lia. reflexivity. }
  split; [reflexivity|]. split; [exact Hc|].
  assert (H0 : (0 < historyIndex (clearCanvas e))%nat) by (rewrite Hi; lia).
  split; [|exact (proj2 (undo_redo_id _ Hc H0))].
  unfold undo. replace (Nat.ltb 0 (historyIndex (clearCanvas e))) with true
    by (symmetry; apply Nat.ltb_lt; exact H0).
  change (snapshotAt (history (clearCanvas e)) (pred (historyIndex (clearCanvas e))) = paintedTiles e).
  rewrite Hi, Hh, Hp. unfold snapshotAt. rewrite lookup_app_l by lia. rewrite Hlast. reflexivity.
Qed.

Lemma clear_then_undo_witness :
  historyConsistent afterBrush /\ historyIndex afterBrush = pred (length (history afterBrush)) /\
  paintedTiles (clearCanvas afterBrush) = ∅ /\
  historyConsistent (clearCanvas afterBrush) /\
  paintedTiles (undo (clearCanvas afterBrush)) = paintedTiles afterBrush /\
  redo (undo (clearCanvas afterBrush)) = clearCanvas afterBrush.
Proof.
  assert (Hc : historyConsistent afterBrush) by (split; vm_compute; [lia | reflexivity]).
  assert (Hl : historyIndex afterBrush = pred (length (history afterBrush))) by (vm_compute; reflexivity).
  split; [exact Hc|]. split; [exact Hl|]. exact (clear_then_undo afterBrush Hc Hl).
Defined.

Lemma rect_NoDup (gc : GridConfig) (a b : Z * Z) : NoDup (getRectangleTiles gc a b).
Proof.
  unfold getRectangleTiles.
  apply NoDup_ListNoDup, List.NoDup_filter, NoDup_ListNoDup, box_NoDup; apply zrange_NoDup.
Qed.

Lemma circle_NoDup (gc : GridConfig) (c : Z * Z) (d2 : Z) : NoDup (getCircleTiles gc c d2).
Proof.
  unfold getCircleTiles.
  apply NoDup_ListNoDup, List.NoDup_filter, NoDup_ListNoDup, box_NoDup; apply zrange_NoDup.
Qed.

Lemma dedupFirst_id (l : list (Z * Z)) :
  forall seen, NoDup l -> (forall x, x ∈ l -> x ∉ seen) -> dedupFirst seen l = l.
Proof.
  induction l as [|k ks IH]; intros seen Hl Hs; [reflexivity|].
  apply NoDup_cons in Hl as [Hk Hl]. simpl.
  rewrite bool_decide_eq_false_2 by (apply Hs; left).
  f_equal. apply IH; [exact Hl|]. intros x Hx Hin.
  apply elem_of_cons in Hin as [->|Hin]; [exact (Hk Hx)|]. apply (Hs x); [apply elem_of_cons; right; exact Hx | exact Hin].
Qed.

(** While a rectangle or circle gesture is in progress, a mouse move sets the preview to the rectangle or circle tiles between the start and the current cell and leaves the grid alone. *)
Theorem drag_preview_shape (cfg : TilesetConfig) (cx cy : Z) (roll : nat -> Q * Q)
    (e : Editor) (ds pos : Z * Z) :
  isPainting e = true -> drawingStart e = Some ds ->
  getTilePosition (gridConfig e) cx cy = Some pos ->
  (currentTool e = Rectangle ->
   previewTiles (handleMouseMove cfg cx cy roll e) = getRectangleTiles (gridConfig e) ds pos /\
   paintedTiles (handleMouseMove cfg cx cy roll e) = paintedTiles e) /\
  (currentTool e = Circle ->
   previewTiles (handleMouseMove cfg cx cy roll e)
     = getCircleTiles (gridConfig e) ds ((pos.1 - ds.1) ^ 2 + (pos.2 - ds.2) ^ 2) /\
   paintedTiles (handleMouseMove cfg cx cy roll e) = paintedTiles e).
Proof.
  intros Hi Hd Hpos. unfold handleMouseMove. rewrite Hi, Hpos. cbn [negb].
  split; intros Ht; rewrite Ht, Hd; split; try reflexivity; simpl;
    apply dedupFirst_id; try (intros x _ Hx; apply not_elem_of_nil in Hx; exact Hx).
  - apply rect_NoDup.
  - apply circle_NoDup.
Qed.

Lemma drag_preview_shape_witness :
  isPainting rectDragEditor = true /\ drawingStart rectDragEditor = Some (0, 0) /\
  getTilePosition (gridConfig rectDragEditor) 40 20 = Some (2, 1) /\
  (currentTool rectDragEditor = Rectangle ->
   previewTiles (handleMouseMove scenarioConfig 40 20 noRoll rectDragEditor)
     = getRectangleTiles (gridConfig rectDragEditor) (0, 0) (2, 1) /\
   paintedTiles (handleMouseMove scenarioConfig 40 20 noRoll rectDragEditor) = paintedTiles rectDragEditor) /\
  (currentTool rectDragEditor = Circle ->
   previewTiles (handleMouseMove scenarioConfig 40 20 noRoll rectDragEditor)
     = getCircleTiles (gridConfig rectDragEditor) (0, 0) (((2, 1).1 - (0, 0).1) ^ 2 + ((2, 1).2 - (0, 0).2) ^ 2) /\
   paintedTiles (handleMouseMove scenarioConfig 40 20 noRoll rectDragEditor) = paintedTiles rectDragEditor).
Proof.
  assert (H1 : isPainting rectDragEditor = true) by reflexivity.
  assert (H2 : drawingStart rectDragEditor = Some (0, 0)) by reflexivity.
  assert (H3 : getTilePosition (gridConfig rectDragEditor) 40 20 = Some (2, 1)) by reflexivity.
  split; [exact H1|]. split; [exact H2|]. split; [exact H3|].
  exact (drag_preview_shape scenarioConfig 40 20 noRoll rectDragEditor (0, 0) (2, 1) H1 H2 H3).
Defined.

(** A flood-fill click erases or paints exactly the flood region of the clicked cell, leaves other cells as they were, and ends the gesture without touching the history. *)
Theorem fill_click_region (cfg : TilesetConfig) (cx cy : Z) (roll : nat -> Q * Q)
    (e : Editor) (pos : Z * Z) :
  currentTool e = Fill ->
  getTilePosition (gridConfig e) cx cy = Some pos ->
  let region := floodRegion (gridConfig e) (paintedTiles e) (matAt (paintedTiles e) pos) pos in
  let e' := handleMouseDown cfg cx cy roll e in
  isPainting e' = false /\ history e' = history e /\ historyIndex e' = historyIndex e /\
  (isErasing e = true ->
   (forall k, region k -> paintedTiles e' !! k = None) /\
   (forall k, ~ region k -> cellContent <$> paintedTiles e' !! k = cellContent <$> paintedTiles e !! k)) /\
  (isErasing e = false -> selectedMaterial e = "" -> paintedTiles e' = paintedTiles e) /\
  (isErasing e = false -> selectedMaterial e <> "" ->
   (forall k, region k -> exists i,
      nth_error (getFloodFillTiles (gridConfig e) (paintedTiles e) pos) i = Some k /\
      cellContent <$> paintedTiles e' !! k
        = Some (k.1, k.2, selectedMaterial e,
                noiseIdsOf (selectNoise cfg (selectedMaterial e) (roll i).1 (roll i).2))) /\
   (forall k, ~ region k -> cellContent <$> paintedTiles e' !! k = cellContent <$> paintedTiles e !! k)).
Proof.
  intros Ht Hpos region e'.
  destruct (flood_members (gridConfig e) (paintedTiles e) pos) as [Hmem _].
  assert (Hp : paintedTiles e' = paintMultipleTiles cfg (isErasing e) (selectedMaterial e)
                 (getFloodFillTiles (gridConfig e) (paintedTiles e) pos) roll (paintedTiles e)).
  { subst e'. unfold handleMouseDown. rewrite Hpos, Ht. reflexivity. }
  split; [subst e'; unfold handleMouseDown; rewrite Hpos, Ht; reflexivity|].
  split; [subst e'; unfold handleMouseDown; rewrite Hpos, Ht; reflexivity|].
  split; [subst e'; unfold handleMouseDown; rewrite Hpos, Ht; reflexivity|].
  rewrite Hp. unfold paintMultipleTiles.
  split; [|split].
  - intros He. rewrite He. split.
    + intros k Hk. rewrite recalc_lookup.
      destruct (deleteAll_lookup (getFloodFillTiles (gridConfig e) (paintedTiles e) pos)
                  (paintedTiles e) k) as [H1 _].
      rewrite (H1 (proj2 (Hmem k) Hk)). reflexivity.
    + intros k Hk. rewrite recalc_content.
      destruct (deleteAll_lookup (getFloodFillTiles (gridConfig e) (paintedTiles e) pos)
                  (paintedTiles e) k) as [_ H2].
      rewrite H2; [reflexivity|]. intros Hin. exact (Hk (proj1 (Hmem k) Hin)).
  - intros He Hs. rewrite He, Hs. reflexivity.
  - intros He Hs. rewrite He. apply String.eqb_neq in Hs. rewrite Hs. split.
    + intros k Hk.
      destruct (setAll_lookup cfg (selectedMaterial e) roll
                  (getFloodFillTiles (gridConfig e) (paintedTiles e) pos) O (paintedTiles e) k)
        as [H1 _].
      destruct (H1 (proj2 (Hmem k) Hk)) as (j & Hj & E). exists j. split; [exact Hj|].
      rewrite recalc_content, E. reflexivity.
    + intros k Hk.
      destruct (setAll_lookup cfg (selectedMaterial e) roll
                  (getFloodFillTiles (gridConfig e) (paintedTiles e) pos) O (paintedTiles e) k)
        as [_ H2].
      rewrite recalc_content, H2; [reflexivity|]. intros Hin. exact (Hk (proj1 (Hmem k) Hin)).
Qed.

Lemma fill_click_region_witness :
  currentTool fillEditor = Fill /\
  getTilePosition (gridConfig fillEditor) 20 20 = Some (1, 1) /\
  isPainting (handleMouseDown scenarioConfig 20 20 noRoll fillEditor) = false.
Proof.
  assert (H1 : currentTool fillEditor = Fill) by reflexivity.
  assert (H2 : getTilePosition (gridConfig fillEditor) 20 20 = Some (1, 1)) by reflexivity.
  split; [exact H1|]. split; [exact H2|].
  exact (proj1 (fill_click_region scenarioConfig 20 20 noRoll fillEditor (1, 1) H1 H2)).
Defined.

Lemma border_needs_neighbour_witness :
  scenarioGrid !! (0, 0) = Some (plainTile 0 0 "grass") /\
  (forall bid, borderTileId <$> (recalculateAllBorders scenarioConfig scenarioGrid !! (0, 0)) = Some (Some bid) ->
   exists b dir pos, In b (borders scenarioConfig) /\ border_id b = bid /\
     materialA b = materialId (plainTile 0 0 "grass") /\
     In (dir, pos) (getAdjacentPositions (tx (plainTile 0 0 "grass")) (ty (plainTile 0 0 "grass"))) /\
     materialId <$> scenarioGrid !! pos = Some (materialB b)).
Proof.
  assert (H : scenarioGrid !! (0, 0) = Some (plainTile 0 0 "grass")) by reflexivity.
  split; [exact H|].
  exact (proj1 (border_needs_neighbour scenarioConfig scenarioGrid (0, 0) (plainTile 0 0 "grass") H)).
Defined.

Lemma fill_matAt (cfg : TilesetConfig) (M : string) (keys : list (Z * Z))
    (roll : nat -> Q * Q) (m : tileMap) (k : Z * Z) :
  M <> "" ->
  matAt (paintMultipleTiles cfg false M keys roll m) k
  = if decide (k ∈ keys) then Some M else matAt m k.
Proof.
  intros HM. unfold paintMultipleTiles. cbn [negb].
  apply String.eqb_neq in HM as HM'. rewrite HM', recalc_matAt.
  destruct (setAll_lookup cfg M roll keys O m k) as [H1 H2].
  destruct (decide (k ∈ keys)) as [Hin|Hin]; rewrite list_elem_of_In in Hin.
  - destruct (H1 Hin) as (j & _ & E). unfold matAt. rewrite E. cbn [materialId newTile].
    rewrite HM'. reflexivity.
  - unfold matAt. rewrite (H2 Hin). reflexivity.
Qed.

Lemma floodRegion_start (gc : GridConfig) (m : tileMap) (tgt : option string) (s k : Z * Z) :
  floodRegion gc m tgt s k -> inBounds gc s = true.
Proof. induction 1; assumption. Qed.

(** C5 (amended): fill the flood-fill region of [c] with a material [M]
    such that no in-bounds cell orthogonally adjacent to the region and
    outside it already holds [M]; re-running the flood fill at [c] returns
    the same coordinates, each once (a permutation of the first result).
    Empty starts and refilling with the material of [c] are covered. *)
Theorem flood_fill_refill_fixed_point (cfg : TilesetConfig) (gc : GridConfig)
    (m : tileMap) (c : Z * Z) (roll : nat -> Q * Q) (M : string) :
  (forall k n, In k (getFloodFillTiles gc m c) -> In n (floodAdjacent k) ->
     inBounds gc n = true -> ~ In n (getFloodFillTiles gc m c) -> matAt m n <> Some M) ->
  getFloodFillTiles gc (paintMultipleTiles cfg false M (getFloodFillTiles gc m c) roll m) c
  ≡ₚ getFloodFillTiles gc m c.
Proof.
  intros Hside.
  set (F := getFloodFillTiles gc m c) in *.
  set (m' := paintMultipleTiles cfg false M F roll m).
  destruct (String.eqb_spec M "") as [->|HM].
  { subst m'. unfold paintMultipleTiles. reflexivity. }
  destruct (flood_members gc m c) as [Hmem Hnd]. fold F in Hmem, Hnd.
  destruct (flood_members gc m' c) as [Hmem' Hnd'].
  assert (Hm' : forall k, matAt m' k = if decide (k ∈ F) then Some M else matAt m k)
    by (intros k; apply fill_matAt, HM).
  assert (Hin : forall k, In k F -> matAt m' k = Some M).
  { intros k Hk. rewrite Hm'. destruct (decide (k ∈ F)) as [_|Hn]; [reflexivity|].
    exfalso. apply Hn, list_elem_of_In, Hk. }
  assert (Hout : forall k, ~ In k F -> matAt m' k = matAt m k).
  { intros k Hk. rewrite Hm'. destruct (decide (k ∈ F)) as [Hy|_]; [|reflexivity].
    exfalso. apply Hk, list_elem_of_In, Hy. }
  assert (Hiff : forall k, In k (getFloodFillTiles gc m' c) <-> In k F).
  { intros k. rewrite Hmem', Hmem. split.
    - intros H. pose proof (floodRegion_start _ _ _ _ _ H) as Hb.
      assert (Hc : In c F) by (apply Hmem; constructor; [exact Hb|reflexivity]).
      rewrite (Hin c Hc) in H.
      induction H as [Hb' _|k n Hk IH Hn Hbn Hmn].
      + apply Hmem, Hc.
      + destruct (decide (n ∈ F)) as [Hy|Hy]; rewrite list_elem_of_In in Hy.
        * apply Hmem, Hy.
        * exfalso. apply (Hside k n (proj2 (Hmem k) IH) Hn Hbn Hy).
          rewrite <- (Hout n Hy). exact Hmn.
    - intros H. pose proof (floodRegion_start _ _ _ _ _ H) as Hb.
      assert (Hc : In c F) by (apply Hmem; constructor; [exact Hb|reflexivity]).
      assert (HcM : matAt m' c = Some M) by exact (Hin c Hc).
      induction H as [Hb' _|k n Hk IH Hn Hbn Hmn].
      + constructor; [exact Hb'|reflexivity].
      + apply fr_step with k; [exact IH | exact Hn | exact Hbn |].
        rewrite HcM. apply Hin, Hmem. apply fr_step with k; assumption. }
  apply NoDup_Permutation; [exact Hnd' | exact Hnd |].
  intros x. rewrite !list_elem_of_In. apply Hiff.
Qed.

Lemma flood_fill_refill_fixed_point_witness :
  (forall k n, In k (getFloodFillTiles strip2x1 refillGrid (0, 0)) -> In n (floodAdjacent k) ->
     inBounds strip2x1 n = true -> ~ In n (getFloodFillTiles strip2x1 refillGrid (0, 0)) ->
     matAt refillGrid n <> Some "water") /\
  getFloodFillTiles strip2x1
    (paintMultipleTiles scenarioConfig false "water"
       (getFloodFillTiles strip2x1 refillGrid (0, 0)) noRoll refillGrid) (0, 0)
  ≡ₚ getFloodFillTiles strip2x1 refillGrid (0, 0).
Proof.
  assert (Hs : forall k n, In k (getFloodFillTiles strip2x1 refillGrid (0, 0)) ->
     In n (floodAdjacent k) -> inBounds strip2x1 n = true ->
     ~ In n (getFloodFillTiles strip2x1 refillGrid (0, 0)) ->
     matAt refillGrid n <> Some "water").
  { intros k n Hk Hn Hb _. vm_compute in Hk. destruct Hk as [<-|[]].
    cbn in Hn. destruct Hn as [<-|[<-|[<-|[<-|[]]]]]; vm_compute; try discriminate;
      vm_compute in Hb; discriminate. }
  split; [exact Hs|].
  exact (flood_fill_refill_fixed_point scenarioConfig strip2x1 refillGrid (0, 0) noRoll "water" Hs).
Defined.
